(** * metricsx: a provider-agnostic metrics facade

    Shallow embedding of the Go package [metricsx] (files [metrics.go],
    [module.go], [config.go], [provider_prometheus.go] and the no-op
    provider) together with the properties its specification states.

    Conventions of the embedding:
    - Go strings are [string]; slices are [list] (a nil slice and an empty
      slice both have length 0 and are both the empty list);
    - [float64] is Rocq's primitive binary64 [float];
    - [map[string]*T] is [gmap string loc], a pointer [*T] being the index
      of its cell in a typed store of the [World];
    - an [options] argument, a pointer to [Options] in Go, is the struct
      itself: the facade always passes the address of a fresh struct;
    - code that mutates the heap, logs, reads the clock or may panic lives
      in the monad [M] (state passing over [World], with [Panic]);
    - a method runs to its end before the next one starts: the provider's
      methods hold its mutex throughout. *)

From Stdlib Require Import ZArith Ascii String List Lia.
From Stdlib Require Import Floats.PrimFloat Numbers.Cyclic.Int63.Uint63.
From stdpp Require Import base option list gmap strings pretty relations.

Set Warnings "-inexact-float".
Local Open Scope string_scope.
Local Open Scope Z_scope.
Local Open Scope list_scope.

(** ** metrics.go: options *)

Definition float64 := float.

(** [type Options struct] *)
Record Options := mkOptions {
  Help : string;
  Labels : list string;
  Buckets : list float64;
  Objectives : list (float64 * float64);
  Namespace : string;
  Subsystem : string;
}.

(** [type Option func(o)] over a pointer to [Options]: a modifier updates
    the working copy it is handed; the embedding returns the updated copy.
    The functions are total, so a nil [Option] is outside the model. *)
Definition Option := Options -> Options.

Definition WithHelp (help : string) : Option :=
  fun o => mkOptions help (Labels o) (Buckets o) (Objectives o) (Namespace o) (Subsystem o).

Definition WithLabels (labels : list string) : Option :=
  fun o => mkOptions (Help o) labels (Buckets o) (Objectives o) (Namespace o) (Subsystem o).

Definition WithBuckets (buckets : list float64) : Option :=
  fun o => mkOptions (Help o) (Labels o) buckets (Objectives o) (Namespace o) (Subsystem o).

Definition WithObjectives (objectives : list (float64 * float64)) : Option :=
  fun o => mkOptions (Help o) (Labels o) (Buckets o) objectives (Namespace o) (Subsystem o).

Definition WithNamespace (namespace : string) : Option :=
  fun o => mkOptions (Help o) (Labels o) (Buckets o) (Objectives o) namespace (Subsystem o).

Definition WithSubsystem (subsystem : string) : Option :=
  fun o => mkOptions (Help o) (Labels o) (Buckets o) (Objectives o) (Namespace o) subsystem.

(** [var DefaultBuckets] *)
Definition DefaultBuckets : list float64 :=
  [0.001; 0.005; 0.01; 0.05; 0.1; 0.5; 1; 5; 10]%float.

(** [var DefaultObjectives] *)
Definition DefaultObjectives : list (float64 * float64) :=
  [(0.5, 0.05); (0.9, 0.01); (0.99, 0.001)]%float.

(** The [for _, opt := range opts { opt(options) }] loop of [applyOptions]. *)
Fixpoint applyOptions_loop (opts : list Option) (options : Options) : Options :=
  match opts with
  | [] => options
  | opt :: rest => applyOptions_loop rest (opt options)
  end.

(** [func applyOptions(opts ...Option) *Options] *)
Definition applyOptions (opts : list Option) : Options :=
  let options := mkOptions "" [] DefaultBuckets DefaultObjectives "" "" in
  applyOptions_loop opts options.

(** The six option constructors of [metrics.go], as data: what a caller of
    [WithHelp], [WithLabels], ... passes. *)
Inductive Modifier :=
| MHelp (help : string)
| MLabels (labels : list string)
| MBuckets (buckets : list float64)
| MObjectives (objectives : list (float64 * float64))
| MNamespace (namespace : string)
| MSubsystem (subsystem : string).

Definition modifier_fn (m : Modifier) : Option :=
  match m with
  | MHelp s => WithHelp s
  | MLabels l => WithLabels l
  | MBuckets b => WithBuckets b
  | MObjectives q => WithObjectives q
  | MNamespace s => WithNamespace s
  | MSubsystem s => WithSubsystem s
  end.

(** Which field a constructor sets, and to what. *)
Definition sets_help (m : Modifier) : option string :=
  match m with MHelp s => Some s | _ => None end.
Definition sets_labels (m : Modifier) : option (list string) :=
  match m with MLabels l => Some l | _ => None end.
Definition sets_buckets (m : Modifier) : option (list float64) :=
  match m with MBuckets b => Some b | _ => None end.
Definition sets_objectives (m : Modifier) : option (list (float64 * float64)) :=
  match m with MObjectives q => Some q | _ => None end.
Definition sets_namespace (m : Modifier) : option string :=
  match m with MNamespace s => Some s | _ => None end.
Definition sets_subsystem (m : Modifier) : option string :=
  match m with MSubsystem s => Some s | _ => None end.

(** The argument of the last modifier of [ms] that sets the field selected
    by [sel], or [d] when none does. *)
Definition last_setting {A} (sel : Modifier -> option A) (ms : list Modifier) (d : A) : A :=
  default d (last (omap sel ms)).

(** ** External collaborators: errors, logging, configuration, time *)

(** A pointer: the index of a cell in one of the typed stores of [World]. *)
Definition loc := nat.

(** Go [error] values: [http.ErrServerClosed] is told apart from all others
    by the serving goroutine. *)
Inductive error :=
| ErrServerClosed
| ErrOther (msg : string).

Global Instance error_eq_dec : EqDecision error.
Proof. solve_decision. Defined.

(** [logx.Logger]: a handle on a log sink; what is logged is appended to the
    world's log. *)
Definition Logger := nat.

Inductive Level := LevelInfo | LevelWarn | LevelError.

(** [logx.String(key, value)] and [logx.Err(err)]. *)
Inductive Field :=
| logx_String (key value : string)
| logx_Err (err : error).

Record LogEntry := mkLogEntry {
  le_logger : Logger;
  le_level : Level;
  le_msg : string;
  le_fields : list Field;
}.

(** [context.Context], opaque to this package. *)
Definition context_Context := nat.

(** [config.go] *)
Module PrometheusConfig.
Record t := mk {
  Namespace : string;
  Subsystem : string;
  Path : string;
  Port : Z;
  EnableProcessMetrics : bool;
  EnableGoMetrics : bool;
}.
End PrometheusConfig.

Module Config.
Record t := mk {
  Enabled : bool;
  Provider : string;
  Prometheus : PrometheusConfig.t;
}.
(** The configuration with its [Enabled] field replaced. *)
Definition with_Enabled (b : bool) (c : t) : t := mk b (Provider c) (Prometheus c).
End Config.

(** Package [time]: a [time.Time] obtained from [time.Now] carries a reading
    of the monotonic clock, an int64 count of nanoseconds; [time.Duration]
    is an int64 count of nanoseconds. *)
Definition Time := Z.
Definition Duration := Z.

Definition wrap64 (z : Z) : Z := (z + 2 ^ 63) mod 2 ^ 64 - 2 ^ 63.
Definition maxDuration : Duration := 2 ^ 63 - 1.
Definition minDuration : Duration := - 2 ^ 63.
Definition Second : Duration := 1000000000.

(** [time.subMono]: the int64 difference of two monotonic readings,
    saturated where the subtraction overflows. *)
Definition subMono (t u : Z) : Duration :=
  let d := wrap64 (t - u) in
  if (d <? 0) && (u <? t) then maxDuration
  else if (0 <? d) && (t <? u) then minDuration
  else d.

(** The conversion [float64(n)] of an int64 whose magnitude is below 2^63
    (every value this package converts is below 2^34, hence exact). *)
Definition float64_of_int64 (n : Z) : float64 :=
  if n <? 0 then PrimFloat.opp (PrimFloat.of_uint63 (Uint63.of_Z (- n)))
  else PrimFloat.of_uint63 (Uint63.of_Z n).

(** [func (d Duration) Seconds() float64]: Go's integer [/] and [%]
    truncate towards zero. *)
Definition Seconds (d : Duration) : float64 :=
  let sec := Z.quot d Second in
  let nsec := Z.rem d Second in
  (float64_of_int64 sec + float64_of_int64 nsec / 1e9)%float.

(** [fmt.Sprintf] with the verb [%d]. *)
Definition itoa (n : Z) : string := pretty n.

(** [http.Server{Addr, Handler}], the handler being a mux that serves the
    registry under one pattern. *)
Record Server := mkServer {
  Addr : string;
  Pattern : string;
}.

(** ** The Prometheus client library, as this package uses it

    [client_golang] is not part of the repository: its registry and metric
    vectors are taken abstractly. A [Register*] function returns [None] where
    [Registry.Register] returns an error, which [MustRegister] turns into a
    panic. A vector operation returns [None] where
    [vec.WithLabelValues(lvs...)] or the operation on the child panics. *)

Inductive CounterOpts := mkCounterOpts (Namespace Subsystem Name Help : string).
Inductive GaugeOpts := mkGaugeOpts (Namespace Subsystem Name Help : string).
Inductive HistogramOpts :=
  mkHistogramOpts (Namespace Subsystem Name Help : string) (Buckets : list float64).
Inductive SummaryOpts :=
  mkSummaryOpts (Namespace Subsystem Name Help : string)
                (Objectives : list (float64 * float64)).

Inductive DefaultCollector := ProcessCollector | GoCollector.

Class PrometheusClient := {
  Registry : Type;
  CounterVec : Type;
  GaugeVec : Type;
  HistogramVec : Type;
  SummaryVec : Type;
  NewRegistry : Registry;
  NewCounterVec : CounterOpts -> list string -> CounterVec;
  NewGaugeVec : GaugeOpts -> list string -> GaugeVec;
  NewHistogramVec : HistogramOpts -> list string -> HistogramVec;
  NewSummaryVec : SummaryOpts -> list string -> SummaryVec;
  RegisterCollector : Registry -> DefaultCollector -> option Registry;
  RegisterCounterVec : Registry -> CounterVec -> option Registry;
  RegisterGaugeVec : Registry -> GaugeVec -> option Registry;
  RegisterHistogramVec : Registry -> HistogramVec -> option Registry;
  RegisterSummaryVec : Registry -> SummaryVec -> option Registry;
  CounterVec_Inc : CounterVec -> list string -> option CounterVec;
  CounterVec_Add : CounterVec -> float64 -> list string -> option CounterVec;
  GaugeVec_Set : GaugeVec -> float64 -> list string -> option GaugeVec;
  GaugeVec_Inc : GaugeVec -> list string -> option GaugeVec;
  GaugeVec_Dec : GaugeVec -> list string -> option GaugeVec;
  GaugeVec_Add : GaugeVec -> float64 -> list string -> option GaugeVec;
  GaugeVec_Sub : GaugeVec -> float64 -> list string -> option GaugeVec;
  HistogramVec_Observe : HistogramVec -> float64 -> list string -> option HistogramVec;
  SummaryVec_Observe : SummaryVec -> float64 -> list string -> option SummaryVec;
  (** [net/http]: whether [ServeMux.Handle] accepts a pattern (it panics on
      one it does not), and what [Server.Shutdown] returns. *)
  ServeMux_accepts : string -> bool;
  Server_Shutdown : Server -> context_Context -> option error;
}.

(** *** A small client, to run the package on concrete inputs

    The registry holds the fully qualified names registered so far and
    refuses an empty name and a name it already holds. A vector holds its
    name, its label names and the calls it received, and accepts a call
    whose label values are as many as its label names. The mux accepts a
    pattern that starts with a slash; a shutdown succeeds. *)

(** [prometheus.BuildFQName] *)
Definition BuildFQName (namespace subsystem name : string) : string :=
  if decide (name = "") then ""
  else if decide (namespace ≠ "" ∧ subsystem ≠ "")
       then namespace +:+ "_" +:+ subsystem +:+ "_" +:+ name
  else if decide (namespace ≠ "") then namespace +:+ "_" +:+ name
  else if decide (subsystem ≠ "") then subsystem +:+ "_" +:+ name
  else name.

Record ref_vec := mk_ref_vec {
  rv_name : string;
  rv_labels : list string;
  rv_calls : list (string * option float64 * list string);
}.

Definition ref_register (r : list string) (fqname : string) : option (list string) :=
  if decide (fqname = "") then None
  else if decide (fqname ∈ r) then None
  else Some (r ++ [fqname]).

Definition ref_call (method : string) (value : option float64)
           (v : ref_vec) (lvs : list string) : option ref_vec :=
  if decide (length lvs = length (rv_labels v))
  then Some (mk_ref_vec (rv_name v) (rv_labels v) (rv_calls v ++ [(method, value, lvs)]))
  else None.

Definition ref_accepts (pattern : string) : bool :=
  match pattern with
  | String "/"%char _ => true
  | _ => false
  end.

Definition reference_client : PrometheusClient := {|
  Registry := list string;
  CounterVec := ref_vec;
  GaugeVec := ref_vec;
  HistogramVec := ref_vec;
  SummaryVec := ref_vec;
  NewRegistry := [];
  NewCounterVec := fun '(mkCounterOpts ns sub name _) labels =>
    mk_ref_vec (BuildFQName ns sub name) labels [];
  NewGaugeVec := fun '(mkGaugeOpts ns sub name _) labels =>
    mk_ref_vec (BuildFQName ns sub name) labels [];
  NewHistogramVec := fun '(mkHistogramOpts ns sub name _ _) labels =>
    mk_ref_vec (BuildFQName ns sub name) labels [];
  NewSummaryVec := fun '(mkSummaryOpts ns sub name _ _) labels =>
    mk_ref_vec (BuildFQName ns sub name) labels [];
  RegisterCollector := fun r c =>
    ref_register r (match c with
                    | ProcessCollector => "process_collector"
                    | GoCollector => "go_collector"
                    end);
  RegisterCounterVec := fun r v => ref_register r (rv_name v);
  RegisterGaugeVec := fun r v => ref_register r (rv_name v);
  RegisterHistogramVec := fun r v => ref_register r (rv_name v);
  RegisterSummaryVec := fun r v => ref_register r (rv_name v);
  CounterVec_Inc := ref_call "Inc" None;
  CounterVec_Add := fun v x => ref_call "Add" (Some x) v;
  GaugeVec_Set := fun v x => ref_call "Set" (Some x) v;
  GaugeVec_Inc := ref_call "Inc" None;
  GaugeVec_Dec := ref_call "Dec" None;
  GaugeVec_Add := fun v x => ref_call "Add" (Some x) v;
  GaugeVec_Sub := fun v x => ref_call "Sub" (Some x) v;
  HistogramVec_Observe := fun v x => ref_call "Observe" (Some x) v;
  SummaryVec_Observe := fun v x => ref_call "Observe" (Some x) v;
  ServeMux_accepts := ref_accepts;
  Server_Shutdown := fun _ _ => None;
|}.

Section Metricsx.
Context `{client : PrometheusClient}.

(** ** provider_prometheus.go: the structs *)

(** [type prometheusProvider struct]; [mu] is left out: the methods hold
    the mutex from entry to exit, and the embedding runs them one at a
    time. *)
Record prometheusProvider := mkProvider {
  config : PrometheusConfig.t;
  logger : Logger;
  registry : Registry;
  server : option Server;
  counters : gmap string loc;
  gauges : gmap string loc;
  histograms : gmap string loc;
  summaries : gmap string loc;
}.

Definition set_registry (r : Registry) (p : prometheusProvider) :=
  mkProvider (config p) (logger p) r (server p)
             (counters p) (gauges p) (histograms p) (summaries p).
Definition set_server (s : option Server) (p : prometheusProvider) :=
  mkProvider (config p) (logger p) (registry p) s
             (counters p) (gauges p) (histograms p) (summaries p).
Definition set_counters (m : gmap string loc) (p : prometheusProvider) :=
  mkProvider (config p) (logger p) (registry p) (server p)
             m (gauges p) (histograms p) (summaries p).
Definition set_gauges (m : gmap string loc) (p : prometheusProvider) :=
  mkProvider (config p) (logger p) (registry p) (server p)
             (counters p) m (histograms p) (summaries p).
Definition set_histograms (m : gmap string loc) (p : prometheusProvider) :=
  mkProvider (config p) (logger p) (registry p) (server p)
             (counters p) (gauges p) m (summaries p).
Definition set_summaries (m : gmap string loc) (p : prometheusProvider) :=
  mkProvider (config p) (logger p) (registry p) (server p)
             (counters p) (gauges p) (histograms p) m.

(** The four wrappers [prometheusCounterVec], ..., each with its backend
    vector and the label names it was declared with. *)
Record prometheusCounterVec := mkCounterVec { cv_vec : CounterVec; cv_labels : list string }.
Record prometheusGaugeVec := mkGaugeVec { gv_vec : GaugeVec; gv_labels : list string }.
Record prometheusHistogramVec :=
  mkHistogramVec { hv_vec : HistogramVec; hv_labels : list string }.
Record prometheusSummaryVec := mkSummaryVec { sv_vec : SummaryVec; sv_labels : list string }.

(** [type prometheusTimer struct]: never written after its creation, so
    the embedding passes it by value. *)
Record prometheusTimer := mkTimer {
  histogram : loc;
  labels : list string;
  start : Time;
}.

(** ** The world the package runs in *)

Record World := mkWorld {
  w_now : Z;                                   (* the monotonic clock *)
  w_log : list LogEntry;                       (* what the loggers received *)
  w_providers : list prometheusProvider;       (* cells of *prometheusProvider *)
  w_counters : list prometheusCounterVec;      (* cells of *prometheusCounterVec *)
  w_gauges : list prometheusGaugeVec;
  w_histograms : list prometheusHistogramVec;
  w_summaries : list prometheusSummaryVec;
  w_goroutines : list loc;                     (* serving goroutines started, by provider *)
}.

Definition set_now (t : Z) (w : World) :=
  mkWorld t (w_log w) (w_providers w) (w_counters w) (w_gauges w)
          (w_histograms w) (w_summaries w) (w_goroutines w).
Definition set_log (l : list LogEntry) (w : World) :=
  mkWorld (w_now w) l (w_providers w) (w_counters w) (w_gauges w)
          (w_histograms w) (w_summaries w) (w_goroutines w).
Definition set_providers (l : list prometheusProvider) (w : World) :=
  mkWorld (w_now w) (w_log w) l (w_counters w) (w_gauges w)
          (w_histograms w) (w_summaries w) (w_goroutines w).
Definition set_w_counters (l : list prometheusCounterVec) (w : World) :=
  mkWorld (w_now w) (w_log w) (w_providers w) l (w_gauges w)
          (w_histograms w) (w_summaries w) (w_goroutines w).
Definition set_w_gauges (l : list prometheusGaugeVec) (w : World) :=
  mkWorld (w_now w) (w_log w) (w_providers w) (w_counters w) l
          (w_histograms w) (w_summaries w) (w_goroutines w).
Definition set_w_histograms (l : list prometheusHistogramVec) (w : World) :=
  mkWorld (w_now w) (w_log w) (w_providers w) (w_counters w) (w_gauges w)
          l (w_summaries w) (w_goroutines w).
Definition set_w_summaries (l : list prometheusSummaryVec) (w : World) :=
  mkWorld (w_now w) (w_log w) (w_providers w) (w_counters w) (w_gauges w)
          (w_histograms w) l (w_goroutines w).
Definition set_goroutines (l : list loc) (w : World) :=
  mkWorld (w_now w) (w_log w) (w_providers w) (w_counters w) (w_gauges w)
          (w_histograms w) (w_summaries w) l.

(** The world a process starts in, at clock reading [t]. *)
Definition initial_world (t : Z) : World := mkWorld t [] [] [] [] [] [] [].

(** ** The monad of the package's code: state passing, with panics *)

Inductive Outcome (A : Type) :=
| Ok (a : A)
| Panic (reason : string).
Global Arguments Ok {A} a.
Global Arguments Panic {A} reason.

Definition M (A : Type) : Type := World -> Outcome A * World.

Global Instance M_ret : MRet M := fun A a w => (Ok a, w).
Global Instance M_bind : MBind M := fun A B f m w =>
  match m w with
  | (Ok a, w') => f a w'
  | (Panic r, w') => (Panic r, w')
  end.

Definition panic {A} (reason : string) : M A := fun w => (Panic reason, w).
Definition get_world : M World := fun w => (Ok w, w).
Definition modify_world (f : World -> World) : M unit := fun w => (Ok tt, f w).

(** Dereferencing: a pointer outside its store is a nil dereference. *)
Definition deref {A} (store : World -> list A) (l : loc) : M A :=
  w ← get_world;
  match store w !! l with
  | Some a => mret a
  | None => panic "invalid memory address or nil pointer dereference"
  end.

(** [&T{...}]: a fresh cell at the end of the store. *)
Definition new {A} (store : World -> list A) (set : list A -> World -> World) (a : A) : M loc :=
  w ← get_world;
  modify_world (set (store w ++ [a]));;
  mret (length (store w)).

(** Writing through a pointer that the code dereferenced before. *)
Definition assign {A} (store : World -> list A) (set : list A -> World -> World)
           (l : loc) (a : A) : M unit :=
  modify_world (fun w => set (<[l := a]> (store w)) w).

Definition log (lg : Logger) (lvl : Level) (msg : string) (fields : list Field) : M unit :=
  modify_world (fun w => set_log (w_log w ++ [mkLogEntry lg lvl msg fields]) w).

(** [time.Now()] and [time.Since(t)] for a [t] that carries a monotonic
    reading. *)
Definition time_Now : M Time := w ← get_world; mret (w_now w).
Definition time_Since (t : Time) : M Duration := w ← get_world; mret (subMono (w_now w) t).

(** [registry.MustRegister(c)] *)
Definition MustRegister (r : option Registry) : M Registry :=
  match r with
  | Some r' => mret r'
  | None => panic "MustRegister: registration failed"
  end.

(** ** provider_prometheus.go: the provider *)

(** [func (p *prometheusProvider) namespace(options *Options) string] *)
Definition namespace (p : prometheusProvider) (options : Options) : string :=
  if decide (Namespace options ≠ "") then Namespace options
  else PrometheusConfig.Namespace (config p).

(** [func (p *prometheusProvider) subsystem(options *Options) string] *)
Definition subsystem (p : prometheusProvider) (options : Options) : string :=
  if decide (Subsystem options ≠ "") then Subsystem options
  else PrometheusConfig.Subsystem (config p).

(** [func (p *prometheusProvider) metricKey(name string, options *Options) string]:
    [fmt.Sprintf] with the format [%s_%s_%s]. *)
Definition metricKey (p : prometheusProvider) (name : string) (options : Options) : string :=
  namespace p options +:+ "_" +:+ subsystem p options +:+ "_" +:+ name.

(** [func newPrometheusProvider(config PrometheusConfig, logger logx.Logger) Provider],
    returning the pointer to the new provider. *)
Definition newPrometheusProvider (cfg : PrometheusConfig.t) (lg : Logger) : M loc :=
  let registry := NewRegistry in
  registry ← (if PrometheusConfig.EnableProcessMetrics cfg
              then MustRegister (RegisterCollector registry ProcessCollector)
              else mret registry);
  registry ← (if PrometheusConfig.EnableGoMetrics cfg
              then MustRegister (RegisterCollector registry GoCollector)
              else mret registry);
  new w_providers set_providers (mkProvider cfg lg registry None ∅ ∅ ∅ ∅).

(** [func (p *prometheusProvider) Counter(name string, options *Options) Counter] *)
Definition prometheusProvider_Counter (l : loc) (name : string) (options : Options) : M loc :=
  p ← deref w_providers l;
  let key := metricKey p name options in
  match counters p !! key with
  | Some c => mret c
  | None =>
      let counterVec :=
        NewCounterVec
          (mkCounterOpts (namespace p options) (subsystem p options) name (Help options))
          (Labels options) in
      reg ← MustRegister (RegisterCounterVec (registry p) counterVec);
      assign w_providers set_providers l (set_registry reg p);;
      counter ← new w_counters set_w_counters (mkCounterVec counterVec (Labels options));
      assign w_providers set_providers l
             (set_counters (<[key := counter]> (counters p)) (set_registry reg p));;
      mret counter
  end.

(** [func (p *prometheusProvider) Gauge(name string, options *Options) Gauge] *)
Definition prometheusProvider_Gauge (l : loc) (name : string) (options : Options) : M loc :=
  p ← deref w_providers l;
  let key := metricKey p name options in
  match gauges p !! key with
  | Some g => mret g
  | None =>
      let gaugeVec :=
        NewGaugeVec
          (mkGaugeOpts (namespace p options) (subsystem p options) name (Help options))
          (Labels options) in
      reg ← MustRegister (RegisterGaugeVec (registry p) gaugeVec);
      assign w_providers set_providers l (set_registry reg p);;
      gauge ← new w_gauges set_w_gauges (mkGaugeVec gaugeVec (Labels options));
      assign w_providers set_providers l
             (set_gauges (<[key := gauge]> (gauges p)) (set_registry reg p));;
      mret gauge
  end.

(** [func (p *prometheusProvider) Histogram(name string, options *Options) Histogram] *)
Definition prometheusProvider_Histogram (l : loc) (name : string) (options : Options) : M loc :=
  p ← deref w_providers l;
  let key := metricKey p name options in
  match histograms p !! key with
  | Some h => mret h
  | None =>
      let histogramVec :=
        NewHistogramVec
          (mkHistogramOpts (namespace p options) (subsystem p options) name (Help options)
                           (Buckets options))
          (Labels options) in
      reg ← MustRegister (RegisterHistogramVec (registry p) histogramVec);
      assign w_providers set_providers l (set_registry reg p);;
      histogram ← new w_histograms set_w_histograms
                      (mkHistogramVec histogramVec (Labels options));
      assign w_providers set_providers l
             (set_histograms (<[key := histogram]> (histograms p)) (set_registry reg p));;
      mret histogram
  end.

(** [func (p *prometheusProvider) Summary(name string, options *Options) Summary] *)
Definition prometheusProvider_Summary (l : loc) (name : string) (options : Options) : M loc :=
  p ← deref w_providers l;
  let key := metricKey p name options in
  match summaries p !! key with
  | Some s => mret s
  | None =>
      let summaryVec :=
        NewSummaryVec
          (mkSummaryOpts (namespace p options) (subsystem p options) name (Help options)
                         (Objectives options))
          (Labels options) in
      reg ← MustRegister (RegisterSummaryVec (registry p) summaryVec);
      assign w_providers set_providers l (set_registry reg p);;
      summary ← new w_summaries set_w_summaries (mkSummaryVec summaryVec (Labels options));
      assign w_providers set_providers l
             (set_summaries (<[key := summary]> (summaries p)) (set_registry reg p));;
      mret summary
  end.

(** The goroutine [go func() { ... }()] of [Start]: started, it is recorded
    in the world; it runs on its own, see [serve_goroutine]. *)
Definition go_serve (l : loc) : M unit :=
  modify_world (fun w => set_goroutines (w_goroutines w ++ [l]) w).

(** [func (p *prometheusProvider) Start(ctx context.Context) error] *)
Definition prometheusProvider_Start (l : loc) (ctx : context_Context) : M (option error) :=
  p ← deref w_providers l;
  if decide (PrometheusConfig.Port (config p) = 0) then
    log (logger p) LevelInfo "metrics will be exposed on main HTTP server"
        [logx_String "path" (PrometheusConfig.Path (config p))];;
    mret None
  else
    let addr := ":" +:+ itoa (PrometheusConfig.Port (config p)) in
    log (logger p) LevelInfo "starting metrics HTTP server"
        [logx_String "addr" addr; logx_String "path" (PrometheusConfig.Path (config p))];;
    (if ServeMux_accepts (PrometheusConfig.Path (config p)) then mret tt
     else panic "http: invalid pattern");;
    assign w_providers set_providers l
           (set_server (Some (mkServer addr (PrometheusConfig.Path (config p)))) p);;
    go_serve l;;
    mret None.

(** The body of the goroutine of [Start]. [listen_result] is what
    [p.server.ListenAndServe()] returns once it does: the error of a
    failed bind, of a failed accept, or [ErrServerClosed] after a
    shutdown. *)
Definition serve_goroutine (l : loc) (listen_result : option error) : M unit :=
  p ← deref w_providers l;
  match server p with
  | None => panic "invalid memory address or nil pointer dereference"
  | Some _ =>
      match listen_result with
      | Some err =>
          if decide (err ≠ ErrServerClosed)
          then log (logger p) LevelError "metrics HTTP server error" [logx_Err err]
          else mret tt
      | None => mret tt
      end
  end.

(** [func (p *prometheusProvider) Stop(ctx context.Context) error] *)
Definition prometheusProvider_Stop (l : loc) (ctx : context_Context) : M (option error) :=
  p ← deref w_providers l;
  match server p with
  | None => mret None
  | Some srv =>
      log (logger p) LevelInfo "stopping metrics HTTP server" [];;
      mret (Server_Shutdown srv ctx)
  end.

(** ** provider_prometheus.go: the metric wrappers *)

(** What a backend call leaves: the updated vector, or a panic. *)
Definition backend {A} (r : option A) : M A :=
  match r with
  | Some a => mret a
  | None => panic "prometheus: the backend rejected the call"
  end.

Definition prometheusCounterVec_Inc (c : loc) (lvs : list string) : M unit :=
  cv ← deref w_counters c;
  v ← backend (CounterVec_Inc (cv_vec cv) lvs);
  assign w_counters set_w_counters c (mkCounterVec v (cv_labels cv)).

Definition prometheusCounterVec_Add (c : loc) (value : float64) (lvs : list string) : M unit :=
  cv ← deref w_counters c;
  v ← backend (CounterVec_Add (cv_vec cv) value lvs);
  assign w_counters set_w_counters c (mkCounterVec v (cv_labels cv)).

Definition prometheusGaugeVec_Set (g : loc) (value : float64) (lvs : list string) : M unit :=
  gv ← deref w_gauges g;
  v ← backend (GaugeVec_Set (gv_vec gv) value lvs);
  assign w_gauges set_w_gauges g (mkGaugeVec v (gv_labels gv)).

Definition prometheusGaugeVec_Inc (g : loc) (lvs : list string) : M unit :=
  gv ← deref w_gauges g;
  v ← backend (GaugeVec_Inc (gv_vec gv) lvs);
  assign w_gauges set_w_gauges g (mkGaugeVec v (gv_labels gv)).

Definition prometheusGaugeVec_Dec (g : loc) (lvs : list string) : M unit :=
  gv ← deref w_gauges g;
  v ← backend (GaugeVec_Dec (gv_vec gv) lvs);
  assign w_gauges set_w_gauges g (mkGaugeVec v (gv_labels gv)).

Definition prometheusGaugeVec_Add (g : loc) (value : float64) (lvs : list string) : M unit :=
  gv ← deref w_gauges g;
  v ← backend (GaugeVec_Add (gv_vec gv) value lvs);
  assign w_gauges set_w_gauges g (mkGaugeVec v (gv_labels gv)).

Definition prometheusGaugeVec_Sub (g : loc) (value : float64) (lvs : list string) : M unit :=
  gv ← deref w_gauges g;
  v ← backend (GaugeVec_Sub (gv_vec gv) value lvs);
  assign w_gauges set_w_gauges g (mkGaugeVec v (gv_labels gv)).

(** [func (h *prometheusHistogramVec) Observe(value float64, labels ...string)] *)
Definition prometheusHistogramVec_Observe (h : loc) (value : float64) (lvs : list string)
  : M unit :=
  hv ← deref w_histograms h;
  v ← backend (HistogramVec_Observe (hv_vec hv) value lvs);
  assign w_histograms set_w_histograms h (mkHistogramVec v (hv_labels hv)).

(** [func (h *prometheusHistogramVec) Timer(labels ...string) Timer] *)
Definition prometheusHistogramVec_Timer (h : loc) (lvs : list string) : M prometheusTimer :=
  now ← time_Now;
  mret (mkTimer h lvs now).

Definition prometheusSummaryVec_Observe (s : loc) (value : float64) (lvs : list string)
  : M unit :=
  sv ← deref w_summaries s;
  v ← backend (SummaryVec_Observe (sv_vec sv) value lvs);
  assign w_summaries set_w_summaries s (mkSummaryVec v (sv_labels sv)).

(** [func (t *prometheusTimer) ObserveDuration()] *)
Definition prometheusTimer_ObserveDuration (t : prometheusTimer) : M unit :=
  d ← time_Since (start t);
  let duration := Seconds d in
  prometheusHistogramVec_Observe (histogram t) duration (labels t).

(** [func (t *prometheusTimer) Stop() time.Duration] *)
Definition prometheusTimer_Stop (t : prometheusTimer) : M Duration :=
  duration ← time_Since (start t);
  prometheusHistogramVec_Observe (histogram t) (Seconds duration) (labels t);;
  mret duration.

(** ** The no-op provider *)

Inductive noopProvider : Set := mk_noopProvider.
Inductive noopCounter : Set := mk_noopCounter.
Inductive noopGauge : Set := mk_noopGauge.
Inductive noopHistogram : Set := mk_noopHistogram.
Inductive noopSummary : Set := mk_noopSummary.
(** [type noopTimer struct { start time.Time }] *)
Record noopTimer := mk_noopTimer { noop_start : Time }.

(** The zero [time.Time]. *)
Definition zero_Time : Time := 0.

Definition newNoopProvider : noopProvider := mk_noopProvider.

Definition noopProvider_Counter (p : noopProvider) (name : string) (options : Options)
  : M noopCounter := mret mk_noopCounter.
Definition noopProvider_Gauge (p : noopProvider) (name : string) (options : Options)
  : M noopGauge := mret mk_noopGauge.
Definition noopProvider_Histogram (p : noopProvider) (name : string) (options : Options)
  : M noopHistogram := mret mk_noopHistogram.
Definition noopProvider_Summary (p : noopProvider) (name : string) (options : Options)
  : M noopSummary := mret mk_noopSummary.
Definition noopProvider_Start (p : noopProvider) (ctx : context_Context)
  : M (option error) := mret None.
Definition noopProvider_Stop (p : noopProvider) (ctx : context_Context)
  : M (option error) := mret None.

Definition noopCounter_Inc (c : noopCounter) (lvs : list string) : M unit := mret tt.
Definition noopCounter_Add (c : noopCounter) (value : float64) (lvs : list string)
  : M unit := mret tt.

Definition noopGauge_Set (g : noopGauge) (value : float64) (lvs : list string)
  : M unit := mret tt.
Definition noopGauge_Inc (g : noopGauge) (lvs : list string) : M unit := mret tt.
Definition noopGauge_Dec (g : noopGauge) (lvs : list string) : M unit := mret tt.
Definition noopGauge_Add (g : noopGauge) (value : float64) (lvs : list string)
  : M unit := mret tt.
Definition noopGauge_Sub (g : noopGauge) (value : float64) (lvs : list string)
  : M unit := mret tt.

Definition noopHistogram_Observe (h : noopHistogram) (value : float64) (lvs : list string)
  : M unit := mret tt.
Definition noopHistogram_Timer (h : noopHistogram) (lvs : list string) : M noopTimer :=
  mret (mk_noopTimer zero_Time).

Definition noopSummary_Observe (s : noopSummary) (value : float64) (lvs : list string)
  : M unit := mret tt.

Definition noopTimer_ObserveDuration (t : noopTimer) : M unit := mret tt.
Definition noopTimer_Stop (t : noopTimer) : M Duration := mret 0.

(** ** metrics.go: the interfaces

    A value of a metric interface is one of the package's two
    implementations; the [Provider] interface is open. *)

Inductive Counter := Counter_prometheus (c : loc) | Counter_noop (c : noopCounter).
Inductive Gauge := Gauge_prometheus (g : loc) | Gauge_noop (g : noopGauge).
Inductive Histogram := Histogram_prometheus (h : loc) | Histogram_noop (h : noopHistogram).
Inductive Summary := Summary_prometheus (s : loc) | Summary_noop (s : noopSummary).
Inductive Timer := Timer_prometheus (t : prometheusTimer) | Timer_noop (t : noopTimer).

Definition Counter_Inc (c : Counter) (lvs : list string) : M unit :=
  match c with
  | Counter_prometheus c => prometheusCounterVec_Inc c lvs
  | Counter_noop c => noopCounter_Inc c lvs
  end.
Definition Counter_Add (c : Counter) (value : float64) (lvs : list string) : M unit :=
  match c with
  | Counter_prometheus c => prometheusCounterVec_Add c value lvs
  | Counter_noop c => noopCounter_Add c value lvs
  end.

Definition Gauge_Set (g : Gauge) (value : float64) (lvs : list string) : M unit :=
  match g with
  | Gauge_prometheus g => prometheusGaugeVec_Set g value lvs
  | Gauge_noop g => noopGauge_Set g value lvs
  end.
Definition Gauge_Inc (g : Gauge) (lvs : list string) : M unit :=
  match g with
  | Gauge_prometheus g => prometheusGaugeVec_Inc g lvs
  | Gauge_noop g => noopGauge_Inc g lvs
  end.
Definition Gauge_Dec (g : Gauge) (lvs : list string) : M unit :=
  match g with
  | Gauge_prometheus g => prometheusGaugeVec_Dec g lvs
  | Gauge_noop g => noopGauge_Dec g lvs
  end.
Definition Gauge_Add (g : Gauge) (value : float64) (lvs : list string) : M unit :=
  match g with
  | Gauge_prometheus g => prometheusGaugeVec_Add g value lvs
  | Gauge_noop g => noopGauge_Add g value lvs
  end.
Definition Gauge_Sub (g : Gauge) (value : float64) (lvs : list string) : M unit :=
  match g with
  | Gauge_prometheus g => prometheusGaugeVec_Sub g value lvs
  | Gauge_noop g => noopGauge_Sub g value lvs
  end.

Definition Histogram_Observe (h : Histogram) (value : float64) (lvs : list string) : M unit :=
  match h with
  | Histogram_prometheus h => prometheusHistogramVec_Observe h value lvs
  | Histogram_noop h => noopHistogram_Observe h value lvs
  end.
Definition Histogram_Timer (h : Histogram) (lvs : list string) : M Timer :=
  match h with
  | Histogram_prometheus h => t ← prometheusHistogramVec_Timer h lvs; mret (Timer_prometheus t)
  | Histogram_noop h => t ← noopHistogram_Timer h lvs; mret (Timer_noop t)
  end.

Definition Summary_Observe (s : Summary) (value : float64) (lvs : list string) : M unit :=
  match s with
  | Summary_prometheus s => prometheusSummaryVec_Observe s value lvs
  | Summary_noop s => noopSummary_Observe s value lvs
  end.

Definition Timer_ObserveDuration (t : Timer) : M unit :=
  match t with
  | Timer_prometheus t => prometheusTimer_ObserveDuration t
  | Timer_noop t => noopTimer_ObserveDuration t
  end.
Definition Timer_Stop (t : Timer) : M Duration :=
  match t with
  | Timer_prometheus t => prometheusTimer_Stop t
  | Timer_noop t => noopTimer_Stop t
  end.

(** [type Provider interface] *)
Class Provider (P : Type) := {
  Provider_Counter : P -> string -> Options -> M Counter;
  Provider_Gauge : P -> string -> Options -> M Gauge;
  Provider_Histogram : P -> string -> Options -> M Histogram;
  Provider_Summary : P -> string -> Options -> M Summary;
  Provider_Start : P -> context_Context -> M (option error);
  Provider_Stop : P -> context_Context -> M (option error);
}.

(** The providers of this package, as values of the interface. *)
Inductive ProviderValue :=
| Provider_prometheus (l : loc)
| Provider_noop (n : noopProvider).

Global Instance ProviderValue_Provider : Provider ProviderValue := {
  Provider_Counter p name options :=
    match p with
    | Provider_prometheus l =>
        c ← prometheusProvider_Counter l name options; mret (Counter_prometheus c)
    | Provider_noop n => c ← noopProvider_Counter n name options; mret (Counter_noop c)
    end;
  Provider_Gauge p name options :=
    match p with
    | Provider_prometheus l =>
        g ← prometheusProvider_Gauge l name options; mret (Gauge_prometheus g)
    | Provider_noop n => g ← noopProvider_Gauge n name options; mret (Gauge_noop g)
    end;
  Provider_Histogram p name options :=
    match p with
    | Provider_prometheus l =>
        h ← prometheusProvider_Histogram l name options; mret (Histogram_prometheus h)
    | Provider_noop n => h ← noopProvider_Histogram n name options; mret (Histogram_noop h)
    end;
  Provider_Summary p name options :=
    match p with
    | Provider_prometheus l =>
        s ← prometheusProvider_Summary l name options; mret (Summary_prometheus s)
    | Provider_noop n => s ← noopProvider_Summary n name options; mret (Summary_noop s)
    end;
  Provider_Start p ctx :=
    match p with
    | Provider_prometheus l => prometheusProvider_Start l ctx
    | Provider_noop n => noopProvider_Start n ctx
    end;
  Provider_Stop p ctx :=
    match p with
    | Provider_prometheus l => prometheusProvider_Stop l ctx
    | Provider_noop n => noopProvider_Stop n ctx
    end;
}.

(** ** module.go *)

(** [type metricsImpl struct] *)
Record metricsImpl (P : Type) := mk_metricsImpl {
  provider : P;
  metrics_logger : Logger;
}.
Global Arguments mk_metricsImpl {P} _ _.
Global Arguments provider {P} _.
Global Arguments metrics_logger {P} _.

Definition metricsImpl_Counter {P} `{!Provider P} (m : metricsImpl P)
           (name : string) (opts : list Option) : M Counter :=
  let options := applyOptions opts in
  Provider_Counter (provider m) name options.

Definition metricsImpl_Gauge {P} `{!Provider P} (m : metricsImpl P)
           (name : string) (opts : list Option) : M Gauge :=
  let options := applyOptions opts in
  Provider_Gauge (provider m) name options.

Definition metricsImpl_Histogram {P} `{!Provider P} (m : metricsImpl P)
           (name : string) (opts : list Option) : M Histogram :=
  let options := applyOptions opts in
  Provider_Histogram (provider m) name options.

Definition metricsImpl_Summary {P} `{!Provider P} (m : metricsImpl P)
           (name : string) (opts : list Option) : M Summary :=
  let options := applyOptions opts in
  Provider_Summary (provider m) name options.

(** [type Params struct] and [type Result struct] *)
Record Params := mkParams {
  Params_Config : Config.t;
  Params_Logger : Logger;
}.

Record Result := mkResult {
  Result_Metrics : metricsImpl ProviderValue;
  Result_Provider : ProviderValue;
}.

(** [func NewMetrics(p Params) (Result, error)] *)
Definition NewMetrics (p : Params) : M (Result * option error) :=
  provider ←
    (if decide (Config.Provider (Params_Config p) = "prometheus") then
       l ← newPrometheusProvider (Config.Prometheus (Params_Config p)) (Params_Logger p);
       mret (Provider_prometheus l)
     else if decide (Config.Provider (Params_Config p) = "noop") then
       mret (Provider_noop newNoopProvider)
     else
       log (Params_Logger p) LevelWarn "unknown metrics provider, using noop"
           [logx_String "provider" (Config.Provider (Params_Config p))];;
       mret (Provider_noop newNoopProvider));
  let metrics := mk_metricsImpl provider (Params_Logger p) in
  mret (mkResult metrics provider, None).

(** The two hooks that [registerLifecycle] appends. *)
Definition lifecycle_OnStart {P} `{!Provider P} (provider : P) (lg : Logger)
           (ctx : context_Context) : M (option error) :=
  log lg LevelInfo "starting metrics provider" [];;
  Provider_Start provider ctx.

Definition lifecycle_OnStop {P} `{!Provider P} (provider : P) (lg : Logger)
           (ctx : context_Context) : M (option error) :=
  log lg LevelInfo "stopping metrics provider" [];;
  Provider_Stop provider ctx.

(** ** The package as a transition system *)

(** The four metric kinds, to speak of the four create-or-retrieve methods
    and of the four maps at once. *)
Inductive Kind := KCounter | KGauge | KHistogram | KSummary.

Global Instance Kind_eq_dec : EqDecision Kind.
Proof. solve_decision. Defined.

Definition create (k : Kind) : loc -> string -> Options -> M loc :=
  match k with
  | KCounter => prometheusProvider_Counter
  | KGauge => prometheusProvider_Gauge
  | KHistogram => prometheusProvider_Histogram
  | KSummary => prometheusProvider_Summary
  end.

Definition cache (k : Kind) : prometheusProvider -> gmap string loc :=
  match k with
  | KCounter => counters
  | KGauge => gauges
  | KHistogram => histograms
  | KSummary => summaries
  end.

(** The identity of a metric: resolved namespace, resolved subsystem, name. *)
Definition identity (p : prometheusProvider) (name : string) (options : Options)
  : string * string * string :=
  (namespace p options, subsystem p options, name).

(** What can happen to the world: a call into the package, the serving
    goroutine running to its end, some other code logging, time passing. *)
Inductive Call :=
| Call_NewMetrics (p : Params)
| Call_newPrometheusProvider (cfg : PrometheusConfig.t) (lg : Logger)
| Call_create (k : Kind) (l : loc) (name : string) (options : Options)
| Call_Provider_Counter (p : ProviderValue) (name : string) (options : Options)
| Call_Provider_Gauge (p : ProviderValue) (name : string) (options : Options)
| Call_Provider_Histogram (p : ProviderValue) (name : string) (options : Options)
| Call_Provider_Summary (p : ProviderValue) (name : string) (options : Options)
| Call_Provider_Start (p : ProviderValue) (ctx : context_Context)
| Call_Provider_Stop (p : ProviderValue) (ctx : context_Context)
| Call_serve_goroutine (l : loc) (listen_result : option error)
| Call_Counter_Inc (c : Counter) (lvs : list string)
| Call_Counter_Add (c : Counter) (value : float64) (lvs : list string)
| Call_Gauge_Set (g : Gauge) (value : float64) (lvs : list string)
| Call_Gauge_Inc (g : Gauge) (lvs : list string)
| Call_Gauge_Dec (g : Gauge) (lvs : list string)
| Call_Gauge_Add (g : Gauge) (value : float64) (lvs : list string)
| Call_Gauge_Sub (g : Gauge) (value : float64) (lvs : list string)
| Call_Histogram_Observe (h : Histogram) (value : float64) (lvs : list string)
| Call_Histogram_Timer (h : Histogram) (lvs : list string)
| Call_Summary_Observe (s : Summary) (value : float64) (lvs : list string)
| Call_Timer_ObserveDuration (t : Timer)
| Call_Timer_Stop (t : Timer)
| Call_log (lg : Logger) (lvl : Level) (msg : string) (fields : list Field)
| Call_tick (elapsed : N).

(** The world after a computation, whatever it returned. *)
Definition after {A} (m : M A) (w : World) : World := snd (m w).

Definition exec (c : Call) : World -> World :=
  match c with
  | Call_NewMetrics p => after (NewMetrics p)
  | Call_newPrometheusProvider cfg lg => after (newPrometheusProvider cfg lg)
  | Call_create k l name options => after (create k l name options)
  | Call_Provider_Counter p name options => after (Provider_Counter p name options)
  | Call_Provider_Gauge p name options => after (Provider_Gauge p name options)
  | Call_Provider_Histogram p name options => after (Provider_Histogram p name options)
  | Call_Provider_Summary p name options => after (Provider_Summary p name options)
  | Call_Provider_Start p ctx => after (Provider_Start p ctx)
  | Call_Provider_Stop p ctx => after (Provider_Stop p ctx)
  | Call_serve_goroutine l r => after (serve_goroutine l r)
  | Call_Counter_Inc c lvs => after (Counter_Inc c lvs)
  | Call_Counter_Add c v lvs => after (Counter_Add c v lvs)
  | Call_Gauge_Set g v lvs => after (Gauge_Set g v lvs)
  | Call_Gauge_Inc g lvs => after (Gauge_Inc g lvs)
  | Call_Gauge_Dec g lvs => after (Gauge_Dec g lvs)
  | Call_Gauge_Add g v lvs => after (Gauge_Add g v lvs)
  | Call_Gauge_Sub g v lvs => after (Gauge_Sub g v lvs)
  | Call_Histogram_Observe h v lvs => after (Histogram_Observe h v lvs)
  | Call_Histogram_Timer h lvs => after (Histogram_Timer h lvs)
  | Call_Summary_Observe s v lvs => after (Summary_Observe s v lvs)
  | Call_Timer_ObserveDuration t => after (Timer_ObserveDuration t)
  | Call_Timer_Stop t => after (Timer_Stop t)
  | Call_log lg lvl msg fields => after (log lg lvl msg fields)
  | Call_tick elapsed => fun w => set_now (w_now w + Z.of_N elapsed) w
  end.

Definition step (w w' : World) : Prop := exists c : Call, w' = exec c w.

(** [w'] is reachable from [w]. *)
Definition reachable (w w' : World) : Prop := rtc step w w'.

(** A provider only grows: its configuration and its logger stay, a server
    it has is not taken away, and each of its four maps keeps every entry
    it has. *)
Definition provider_le (p p' : prometheusProvider) : Prop :=
  config p = config p' /\
  logger p = logger p' /\
  (is_Some (server p) -> is_Some (server p')) /\
  forall k : Kind, cache k p ⊆ cache k p'.

Definition world_le (w w' : World) : Prop :=
  forall l p, w_providers w !! l = Some p ->
    exists p', w_providers w' !! l = Some p' /\ provider_le p p'.

(** ** The four create-or-retrieve methods seen as one

    What the four methods share once the kind is a parameter: the map of the
    kind, the store of the kind, the vector built for the backend, and the
    world a successful creation leaves. [create_effect] below proves that
    the four methods are this. *)

Definition set_cache (k : Kind) (m : gmap string loc) : prometheusProvider -> prometheusProvider :=
  match k with
  | KCounter => set_counters m
  | KGauge => set_gauges m
  | KHistogram => set_histograms m
  | KSummary => set_summaries m
  end.

(** The number of cells of the store of a kind: the next pointer [new]
    hands out. *)
Definition store_length (k : Kind) (w : World) : nat :=
  match k with
  | KCounter => length (w_counters w)
  | KGauge => length (w_gauges w)
  | KHistogram => length (w_histograms w)
  | KSummary => length (w_summaries w)
  end.

(** The label names a cell of a kind was declared with, when the pointer is
    allocated. *)
Definition cell_labels (k : Kind) (w : World) (c : loc) : option (list string) :=
  match k with
  | KCounter => cv_labels <$> w_counters w !! c
  | KGauge => gv_labels <$> w_gauges w !! c
  | KHistogram => hv_labels <$> w_histograms w !! c
  | KSummary => sv_labels <$> w_summaries w !! c
  end.

(** The registration a method of a kind attempts on a miss. *)
Definition register_new (k : Kind) (p : prometheusProvider) (name : string)
           (options : Options) : option Registry :=
  match k with
  | KCounter =>
      RegisterCounterVec (registry p)
        (NewCounterVec
           (mkCounterOpts (namespace p options) (subsystem p options) name (Help options))
           (Labels options))
  | KGauge =>
      RegisterGaugeVec (registry p)
        (NewGaugeVec
           (mkGaugeOpts (namespace p options) (subsystem p options) name (Help options))
           (Labels options))
  | KHistogram =>
      RegisterHistogramVec (registry p)
        (NewHistogramVec
           (mkHistogramOpts (namespace p options) (subsystem p options) name (Help options)
                            (Buckets options))
           (Labels options))
  | KSummary =>
      RegisterSummaryVec (registry p)
        (NewSummaryVec
           (mkSummaryOpts (namespace p options) (subsystem p options) name (Help options)
                          (Objectives options))
           (Labels options))
  end.

(** The world with the new wrapper of a kind at the end of its store. *)
Definition alloc (k : Kind) (p : prometheusProvider) (name : string) (options : Options)
           (w : World) : World :=
  match k with
  | KCounter =>
      set_w_counters
        (w_counters w ++
           [mkCounterVec
              (NewCounterVec
                 (mkCounterOpts (namespace p options) (subsystem p options) name
                                (Help options))
                 (Labels options))
              (Labels options)]) w
  | KGauge =>
      set_w_gauges
        (w_gauges w ++
           [mkGaugeVec
              (NewGaugeVec
                 (mkGaugeOpts (namespace p options) (subsystem p options) name (Help options))
                 (Labels options))
              (Labels options)]) w
  | KHistogram =>
      set_w_histograms
        (w_histograms w ++
           [mkHistogramVec
              (NewHistogramVec
                 (mkHistogramOpts (namespace p options) (subsystem p options) name
                                  (Help options) (Buckets options))
                 (Labels options))
              (Labels options)]) w
  | KSummary =>
      set_w_summaries
        (w_summaries w ++
           [mkSummaryVec
              (NewSummaryVec
                 (mkSummaryOpts (namespace p options) (subsystem p options) name
                                (Help options) (Objectives options))
                 (Labels options))
              (Labels options)]) w
  end.

(** The world after a creation: the wrapper allocated, the registry
    updated, the new pointer in the map of the kind under the key. *)
Definition created (k : Kind) (l : loc) (p : prometheusProvider) (reg : Registry)
           (name : string) (options : Options) (w : World) : World :=
  set_providers
    (<[l := set_cache k (<[metricKey p name options := store_length k w]> (cache k p))
                      (set_registry reg p)]> (w_providers w))
    (alloc k p name options w).

(** The pointer that provider [l] holds for a kind under a key. *)
Definition entry (w : World) (l : loc) (k : Kind) (key : string) : option loc :=
  p ← w_providers w !! l; cache k p !! key.

(** Every pointer held in a map is allocated in the store of its kind. *)
Definition instances_allocated (w : World) : Prop :=
  forall l k key c, entry w l k key = Some c -> is_Some (cell_labels k w c).

(** No pointer is held twice for one kind: not under two keys, not by two
    providers. *)
Definition no_sharing (w : World) : Prop :=
  forall k l1 l2 key1 key2 c,
    entry w l1 k key1 = Some c -> entry w l2 k key2 = Some c ->
    l1 = l2 /\ key1 = key2.

(** A provider has no server, or it has a port and the server [Start]
    builds from its configuration. *)
Definition server_of_config (p : prometheusProvider) : Prop :=
  server p = None \/
  (PrometheusConfig.Port (config p) <> 0 /\
   server p = Some (mkServer (":" +:+ itoa (PrometheusConfig.Port (config p)))
                             (PrometheusConfig.Path (config p)))).

Definition servers_of_config (w : World) : Prop :=
  forall l p, w_providers w !! l = Some p -> server_of_config p.


End Metricsx.

(** ** The specification's wording of option resolution

    The options resolved from a list of modifiers: the modifiers applied,
    in application order, to the defaults. *)
Definition spec_defaults : Options :=
  {| Help := ""; Labels := []; Buckets := DefaultBuckets;
     Objectives := DefaultObjectives; Namespace := ""; Subsystem := "" |}.

Definition spec_Resolve (modifiers : list Option) : Options :=
  fold_left (fun o modifier => modifier o) modifiers spec_defaults.

(** ** Concrete inputs *)

(** Two option sets whose overrides differ and yet join to the same text. *)
Definition options_a_bc : Options := mkOptions "" [] [] [] "a" "b_c".
Definition options_ab_c : Options := mkOptions "" [] [] [] "a_b" "c".

(** A configuration with its own listener on port 9090. *)
Definition config_9090 : PrometheusConfig.t :=
  PrometheusConfig.mk "myapp" "api" "/metrics" 9090 true true.

(** The error of a listener that cannot bind its port. *)
Definition bind_error : error :=
  ErrOther "listen tcp :9090: bind: address already in use".

(** The world of a process that has built a provider from [config_9090]
    over the small client, at clock reading 100. *)
Definition world_9090 : @World reference_client :=
  after (newPrometheusProvider config_9090 7%nat) (initial_world 100).

(** The provider cell of [world_9090]. *)
Definition provider_9090 : @prometheusProvider reference_client :=
  @mkProvider reference_client config_9090 7%nat
              ["process_collector"; "go_collector"] None ∅ ∅ ∅ ∅.

(** Two declarations of one counter: the second has another help text,
    other labels, and spells out the default namespace. *)
Definition options_first : Options :=
  mkOptions "Total requests" ["method"] DefaultBuckets DefaultObjectives "" "".
Definition options_later : Options :=
  mkOptions "Requests" ["method"; "status"] [] [] "myapp" "".

(** [world_9090] after the counter was declared, and some time later:
    a gauge was declared and 5 ns went by. *)
Definition world_counter : @World reference_client :=
  after (create KCounter 0%nat "requests_total" options_first) world_9090.
Definition world_counter_later : @World reference_client :=
  exec (Call_tick 5) (exec (Call_create KGauge 0%nat "in_flight" options_first) world_counter).

(** [world_9090] after a histogram with one label was declared, and 1.5 s
    later. *)
Definition world_histogram : @World reference_client :=
  after (create KHistogram 0%nat "request_duration_seconds" options_first) world_9090.
Definition world_histogram_later : @World reference_client :=
  exec (Call_tick 1500000000) world_histogram.

(** A configuration that names a provider the package does not have. *)
Definition config_datadog : Config.t := Config.mk true "datadog" config_9090.
Definition config_prometheus : Config.t := Config.mk true "prometheus" config_9090.

(** ** config.go: loading the configuration *)

(** [func (Config) Prefix() string] *)
Definition Config_Prefix (c : Config.t) : string := "metrics".

(** [func (c *Config) Sanitize() *Config]: a copy of the struct, its
    [Prometheus] field assigned once more from the original. *)
Definition Config_Sanitize (c : Config.t) : Config.t :=
  let out := c in
  Config.mk (Config.Enabled out) (Config.Provider out) (Config.Prometheus c).

(** The values of a [map[string]any] that [ConfigSummary] builds. *)
Inductive any :=
| any_bool (b : bool)
| any_string (s : string)
| any_int (n : Z).

(** [func (c *Config) ConfigSummary() map[string]any] *)
Definition Config_ConfigSummary (c : Config.t) : gmap string any :=
  <["enabled" := any_bool (Config.Enabled c)]>
    (<["provider" := any_string (Config.Provider c)]>
       (<["prom_path" := any_string (PrometheusConfig.Path (Config.Prometheus c))]>
          (<["prom_port" := any_int (PrometheusConfig.Port (Config.Prometheus c))]> ∅))).

(** [configx.Loader]: [Bind] is handed the address of a configuration,
    writes into it and returns an error or nil. *)
Definition Loader := Config.t -> Config.t * option error.

(** [var cfg Config]: the zero value. *)
Definition zero_Config : Config.t :=
  Config.mk false "" (PrometheusConfig.mk "" "" "" 0 false false).

(** [func NewConfig(loader configx.Loader) (Config, error)], as [config.go]
    has it. *)
Definition NewConfig (loader : Loader) : Config.t * option error :=
  let '(cfg, err) := loader zero_Config in
  match err with
  | Some e => (cfg, Some e)
  | None => (cfg, None)
  end.

(** [NewConfig] as the file with [Sanitize] has it: the configuration goes
    through [Sanitize] before it is returned. *)
Definition NewConfig_sanitized (loader : Loader) : Config.t * option error :=
  let '(cfg, err) := loader zero_Config in
  match err with
  | Some e => (cfg, Some e)
  | None => let s := Config_Sanitize cfg in (s, None)
  end.

(** The field of [Options] that an option constructor writes. *)
Inductive OptionsField :=
| FieldHelp | FieldLabels | FieldBuckets | FieldObjectives | FieldNamespace | FieldSubsystem.

Definition field_of (m : Modifier) : OptionsField :=
  match m with
  | MHelp _ => FieldHelp
  | MLabels _ => FieldLabels
  | MBuckets _ => FieldBuckets
  | MObjectives _ => FieldObjectives
  | MNamespace _ => FieldNamespace
  | MSubsystem _ => FieldSubsystem
  end.

(** A loader that fails, and one that binds a configuration. *)
Definition loader_failing : Loader :=
  fun cfg => (cfg, Some (ErrOther "configx: cannot bind metrics")).
Definition loader_prometheus : Loader := fun _ => (config_prometheus, None).

(** A configuration with a port and a path no mux accepts. *)
Definition config_no_path : PrometheusConfig.t :=
  PrometheusConfig.mk "" "" "" 9090 false false.

(** A configuration with port 0. *)
Definition config_port_0 : PrometheusConfig.t :=
  PrometheusConfig.mk "myapp" "" "/metrics" 0 false false.

(** The worlds of processes that have built a provider from these, over
    the small client. *)
Definition world_no_path : @World reference_client :=
  after (newPrometheusProvider config_no_path 7%nat) (initial_world 0).
Definition provider_no_path : @prometheusProvider reference_client :=
  @mkProvider reference_client config_no_path 7%nat [] None ∅ ∅ ∅ ∅.

Definition world_port_0 : @World reference_client :=
  after (newPrometheusProvider config_port_0 7%nat) (initial_world 0).
Definition provider_port_0 : @prometheusProvider reference_client :=
  @mkProvider reference_client config_port_0 7%nat [] None ∅ ∅ ∅ ∅.


(** The provider cell of [world_counter_later]. *)
Definition provider_counter_later : @prometheusProvider reference_client :=
  @mkProvider reference_client config_9090 7%nat
              ["process_collector"; "go_collector"; "myapp_api_requests_total";
               "myapp_api_in_flight"]
              None {["myapp_api_requests_total" := 0%nat]}
              {["myapp_api_in_flight" := 0%nat]} ∅ ∅.

(** [world_9090] once [Start] has returned. *)
Definition world_started : @World reference_client :=
  after (prometheusProvider_Start 0%nat 0%nat) world_9090.

Section Properties.
Context `{client : PrometheusClient}.

(** * Properties *)

(** ** Option resolution *)

Lemma applyOptions_loop_app (opts1 opts2 : list Option) (o : Options) :
  applyOptions_loop (opts1 ++ opts2) o = applyOptions_loop opts2 (applyOptions_loop opts1 o).
Proof.
  revert o. induction opts1 as [|opt opts1 IH]; intros o; simpl; [reflexivity|].
  apply IH.
Qed.

Lemma last_setting_cons {A} (sel : Modifier -> option A) m ms d :
  last_setting sel (m :: ms) d = last_setting sel ms (default d (sel m)).
Proof.
  unfold last_setting.
  change (omap sel (m :: ms))
    with (match sel m with Some y => y :: omap sel ms | None => omap sel ms end).
  destruct (sel m) as [a|]; [|reflexivity].
  generalize (omap sel ms). intros [|b l]; [reflexivity|].
  change (last (a :: b :: l)) with (last (b :: l)). simpl default at 2.
  destruct (last (b :: l)) eqn:E'; [reflexivity|].
  apply last_None in E'. discriminate.
Qed.

Lemma applyOptions_loop_fields (ms : list Modifier) (o : Options) :
  let r := applyOptions_loop (modifier_fn <$> ms) o in
  Help r = last_setting sets_help ms (Help o) /\
  Labels r = last_setting sets_labels ms (Labels o) /\
  Buckets r = last_setting sets_buckets ms (Buckets o) /\
  Objectives r = last_setting sets_objectives ms (Objectives o) /\
  Namespace r = last_setting sets_namespace ms (Namespace o) /\
  Subsystem r = last_setting sets_subsystem ms (Subsystem o).
Proof.
  revert o. induction ms as [|m ms IH]; intros o.
  - repeat split.
  - simpl. rewrite !last_setting_cons.
    specialize (IH (modifier_fn m o)). simpl in IH.
    destruct m; simpl in *; exact IH.
Qed.

(** C6. [applyOptions] with no modifier yields the defaults (empty label
    list, [DefaultBuckets], [DefaultObjectives], empty help, namespace and
    subsystem); modifiers run in call order; each of the six constructors
    sets exactly its own field and leaves the other five alone; hence every
    field of the result is the argument of the last modifier that sets it,
    or the default when none does. *)
Theorem C6_applyOptions_defaults_and_order :
  applyOptions [] = mkOptions "" [] DefaultBuckets DefaultObjectives "" "" /\
  (forall (opts : list Option) (opt : Option),
      applyOptions (opts ++ [opt]) = opt (applyOptions opts)) /\
  (forall (o : Options) s l b q,
      WithHelp s o = mkOptions s (Labels o) (Buckets o) (Objectives o) (Namespace o) (Subsystem o) /\
      WithLabels l o = mkOptions (Help o) l (Buckets o) (Objectives o) (Namespace o) (Subsystem o) /\
      WithBuckets b o = mkOptions (Help o) (Labels o) b (Objectives o) (Namespace o) (Subsystem o) /\
      WithObjectives q o = mkOptions (Help o) (Labels o) (Buckets o) q (Namespace o) (Subsystem o) /\
      WithNamespace s o = mkOptions (Help o) (Labels o) (Buckets o) (Objectives o) s (Subsystem o) /\
      WithSubsystem s o = mkOptions (Help o) (Labels o) (Buckets o) (Objectives o) (Namespace o) s) /\
  (forall ms : list Modifier,
      applyOptions (modifier_fn <$> ms) =
      mkOptions (last_setting sets_help ms "")
                (last_setting sets_labels ms [])
                (last_setting sets_buckets ms DefaultBuckets)
                (last_setting sets_objectives ms DefaultObjectives)
                (last_setting sets_namespace ms "")
                (last_setting sets_subsystem ms "")).
Proof.
  split; [reflexivity|]. split.
  { intros opts opt. unfold applyOptions. rewrite applyOptions_loop_app. reflexivity. }
  split.
  { intros o s l b q. repeat split. }
  intros ms. unfold applyOptions.
  pose proof (applyOptions_loop_fields ms
                (mkOptions "" [] DefaultBuckets DefaultObjectives "" "")) as H.
  simpl in H. destruct H as (H1 & H2 & H3 & H4 & H5 & H6).
  destruct (applyOptions_loop _ _) as [h l b q n s]. simpl in *. congruence.
Qed.

(** ** Running the monad *)

Ltac run :=
  cbv beta iota delta
      [after mbind M_bind mret M_ret panic get_world modify_world deref new assign
       log time_Now time_Since MustRegister backend go_serve];
  cbn [fst snd].

Lemma provider_le_refl p : provider_le p p.
Proof. repeat split; [tauto|]. intros k. reflexivity. Qed.

Lemma provider_le_trans p1 p2 p3 :
  provider_le p1 p2 -> provider_le p2 p3 -> provider_le p1 p3.
Proof.
  intros (Hc1 & Hl1 & Hs1 & Hm1) (Hc2 & Hl2 & Hs2 & Hm2).
  split; [congruence|]. split; [congruence|]. split; [tauto|].
  intros k. etrans; [apply Hm1 | apply Hm2].
Qed.

Lemma world_le_refl w : world_le w w.
Proof. intros l p Hl. exists p. split; [assumption | apply provider_le_refl]. Qed.

Lemma world_le_trans w1 w2 w3 : world_le w1 w2 -> world_le w2 w3 -> world_le w1 w3.
Proof.
  intros H12 H23 l p Hl.
  destruct (H12 l p Hl) as (p2 & Hl2 & Hle2).
  destruct (H23 l p2 Hl2) as (p3 & Hl3 & Hle3).
  exists p3. split; [assumption|]. eapply provider_le_trans; eassumption.
Qed.

(** A world with the same provider cells. *)
Lemma world_le_same w w' : w_providers w' = w_providers w -> world_le w w'.
Proof.
  intros E l p Hl. exists p. rewrite E. split; [assumption | apply provider_le_refl].
Qed.

(** A world with one more provider cell. *)
Lemma world_le_new w w' p0 : w_providers w' = w_providers w ++ [p0] -> world_le w w'.
Proof.
  intros E l p Hl. exists p. rewrite E. split; [|apply provider_le_refl].
  apply lookup_app_l_Some. assumption.
Qed.

(** A world in which one provider cell grew. *)
Lemma world_le_grow w w' l p p' :
  w_providers w !! l = Some p -> provider_le p p' ->
  w_providers w' = <[l := p']> (w_providers w) -> world_le w w'.
Proof.
  intros Hl Hle E l0 p0 Hl0. rewrite E.
  destruct (decide (l0 = l)) as [->|Hne].
  - exists p'. split.
    + apply list_lookup_insert_eq. eapply lookup_lt_Some; eassumption.
    + congruence.
  - exists p0. split; [|apply provider_le_refl].
    rewrite list_lookup_insert_ne by congruence. assumption.
Qed.

(** The four create-or-retrieve methods at once: a nil provider panics; a
    cached key is returned and nothing changes; a fresh key whose
    registration fails panics and leaves the provider as it was; a fresh
    key that registers gets a new instance, cached under the key, and no
    other entry of any map changes. *)
Lemma create_cases k l name options w :
  (w_providers w !! l = None /\
   exists r, create k l name options w = (Panic r, w)) \/
  (exists p, w_providers w !! l = Some p /\
     ((exists c, cache k p !! metricKey p name options = Some c /\
                 create k l name options w = (Ok c, w)) \/
      (cache k p !! metricKey p name options = None /\
       ((exists r, create k l name options w = (Panic r, w)) \/
        (exists c w' p',
            create k l name options w = (Ok c, w') /\
            w_providers w' = <[l := p']> (w_providers w) /\
            config p' = config p /\
            logger p' = logger p /\
            server p' = server p /\
            cache k p' = <[metricKey p name options := c]> (cache k p) /\
            forall k', k' <> k -> cache k' p' = cache k' p))))).
Proof.
  destruct (w_providers w !! l) as [p|] eqn:Hl.
  - right. exists p. split; [reflexivity|].
    destruct (cache k p !! metricKey p name options) as [c|] eqn:Hc.
    + left. exists c. split; [reflexivity|].
      destruct k; simpl in *;
        [unfold prometheusProvider_Counter | unfold prometheusProvider_Gauge
        |unfold prometheusProvider_Histogram | unfold prometheusProvider_Summary];
        run; rewrite Hl, Hc; reflexivity.
    + right. split; [reflexivity|].
      destruct k; simpl in *;
        [unfold prometheusProvider_Counter | unfold prometheusProvider_Gauge
        |unfold prometheusProvider_Histogram | unfold prometheusProvider_Summary];
        run; rewrite Hl, Hc;
        match goal with |- context [match ?r with Some _ => _ | None => _ end ?w] =>
          destruct r as [reg|] end;
        try (left; eexists; reflexivity);
        right; eexists _, _, _; (split; [reflexivity|]); cbn;
        rewrite list_insert_insert_eq;
        do 5 (split; [reflexivity|]);
        intros [] Hk; try reflexivity; congruence.
  - left. split; [reflexivity|].
    destruct k; simpl;
      [unfold prometheusProvider_Counter | unfold prometheusProvider_Gauge
      |unfold prometheusProvider_Histogram | unfold prometheusProvider_Summary];
      run; rewrite Hl; eexists; reflexivity.
Qed.


Lemma create_world_le k l name options w :
  world_le w (after (create k l name options) w).
Proof.
  unfold after.
  destruct (create_cases k l name options w)
    as [(_ & r & ->)
       |(p & Hl & [(c & _ & ->)
                  |(Hnone & [(r & ->)
                            |(c & w' & p' & -> & Hw' & Hcfg & Hlg & Hsrv & Hk & Hk')])])];
    simpl; try apply world_le_refl.
  eapply world_le_grow; [exact Hl | | exact Hw'].
  split; [congruence|]. split; [congruence|]. split; [rewrite Hsrv; tauto|]. intros k'.
  destruct (decide (k' = k)) as [->|Hne].
  - rewrite Hk. apply insert_subseteq. exact Hnone.
  - rewrite (Hk' k' Hne). reflexivity.
Qed.

Lemma provider_le_set_server s p : provider_le p (set_server (Some s) p).
Proof.
  split; [reflexivity|]. split; [reflexivity|]. split; [simpl; eauto|].
  intros []; reflexivity.
Qed.

Ltac unfold_api :=
  unfold NewMetrics, newPrometheusProvider,
    prometheusProvider_Start, prometheusProvider_Stop, serve_goroutine,
    prometheusCounterVec_Inc, prometheusCounterVec_Add,
    prometheusGaugeVec_Set, prometheusGaugeVec_Inc, prometheusGaugeVec_Dec,
    prometheusGaugeVec_Add, prometheusGaugeVec_Sub,
    prometheusHistogramVec_Timer, prometheusSummaryVec_Observe,
    prometheusTimer_ObserveDuration, prometheusTimer_Stop,
    prometheusHistogramVec_Observe,
    noopProvider_Counter, noopProvider_Gauge, noopProvider_Histogram,
    noopProvider_Summary, noopProvider_Start, noopProvider_Stop,
    noopCounter_Inc, noopCounter_Add, noopGauge_Set, noopGauge_Inc, noopGauge_Dec,
    noopGauge_Add, noopGauge_Sub, noopHistogram_Observe, noopHistogram_Timer,
    noopSummary_Observe, noopTimer_ObserveDuration, noopTimer_Stop in *.

Ltac solve_world_le :=
  first
    [ apply world_le_refl
    | apply world_le_same; reflexivity
    | eapply world_le_new; reflexivity
    | eapply world_le_grow;
      [eassumption | apply provider_le_set_server | reflexivity] ].

Lemma after_bind_ret {A B} (m : M A) (f : A -> B) w :
  after (a ← m; mret (f a)) w = after m w.
Proof. unfold after. run. destruct (m w) as [[a|r] w']; reflexivity. Qed.

Lemma exec_world_le c w : world_le w (exec c w).
Proof.
  destruct c; simpl;
    try (apply create_world_le);
    try match goal with p : ProviderValue |- _ => destruct p end;
    try match goal with c : Counter |- _ => destruct c end;
    try match goal with c : Gauge |- _ => destruct c end;
    try match goal with c : Histogram |- _ => destruct c end;
    try match goal with c : Summary |- _ => destruct c end;
    try match goal with c : Timer |- _ => destruct c end;
    simpl; rewrite ?after_bind_ret;
    try (apply (create_world_le KCounter));
    try (apply (create_world_le KGauge));
    try (apply (create_world_le KHistogram));
    try (apply (create_world_le KSummary));
    unfold_api; run; repeat case_match; simplify_eq; cbn; try solve_world_le.
Qed.

Lemma reachable_world_le w w' : reachable w w' -> world_le w w'.
Proof.
  induction 1 as [w | w w1 w2 [c ->] _ IH].
  - apply world_le_refl.
  - eapply world_le_trans; [apply exec_world_le | exact IH].
Qed.

(** ** Identity, key and memoisation *)

(** The key is a function of the identity, and the identity of the
    provider's configuration. *)
Lemma metricKey_of_identity p p' name name' options options' :
  config p' = config p ->
  identity p name' options' = identity p name options ->
  metricKey p' name' options' = metricKey p name options.
Proof.
  unfold identity, metricKey, namespace, subsystem. intros -> E.
  injection E as -> -> ->. reflexivity.
Qed.

(** Once a call has returned [c], the provider holds [c] under the key. *)
Lemma create_Ok_cached k l p name options w c w1 :
  w_providers w !! l = Some p ->
  create k l name options w = (Ok c, w1) ->
  exists p1, w_providers w1 !! l = Some p1 /\ config p1 = config p /\
             cache k p1 !! metricKey p name options = Some c.
Proof.
  intros Hl Hc.
  destruct (create_cases k l name options w)
    as [(Hn & _)
       |(p0 & Hl0 & [(c0 & Hc0 & E)
                    |(Hnone & [(r & E)
                              |(c0 & w' & p' & E & Hw' & Hcfg & _ & _ & Hk & _)])])];
    [congruence| | |]; rewrite E in Hc; simplify_eq.
  - exists p. auto.
  - exists p'. split; [|split; [assumption|]].
    + rewrite Hw'. apply list_lookup_insert_eq. eapply lookup_lt_Some; eassumption.
    + rewrite Hk. apply lookup_insert_eq.
Qed.

(** A cached key is returned as it is, and the world is left alone. *)
Lemma create_hit k l p name options w c :
  w_providers w !! l = Some p ->
  cache k p !! metricKey p name options = Some c ->
  create k l name options w = (Ok c, w).
Proof.
  intros Hl Hc.
  destruct (create_cases k l name options w)
    as [(Hn & _)|(p0 & Hl0 & [(c0 & Hc0 & E)|(Hnone & _)])]; simplify_eq.
  rewrite E. congruence.
Qed.

(** An entry of a map stays, with its instance, in every later world. *)
Lemma cached_forever k l p key c w w' :
  w_providers w !! l = Some p ->
  cache k p !! key = Some c ->
  reachable w w' ->
  exists p', w_providers w' !! l = Some p' /\ config p' = config p /\
             cache k p' !! key = Some c.
Proof.
  intros Hl Hc Hr.
  destruct (reachable_world_le _ _ Hr l p Hl) as (p' & Hl' & Hcfg & _ & _ & Hsub).
  exists p'. split; [assumption|]. split; [congruence|].
  eapply lookup_weaken; [exact Hc | apply Hsub].
Qed.

(** C1. For one provider and one metric kind: once a create-or-retrieve
    call has returned an instance, every later call of that kind whose
    arguments resolve to the same identity returns that very instance
    (the same pointer), whatever its options and whatever happened in
    between, without changing the world; and the map of that kind keeps
    mapping the key to that instance in every later world. *)
Theorem C1_same_identity_same_instance
        (k : Kind) (l : loc) (p : prometheusProvider)
        (name name' : string) (options options' : Options)
        (w w1 w2 : World) (c : loc) :
  w_providers w !! l = Some p ->
  create k l name options w = (Ok c, w1) ->
  reachable w1 w2 ->
  identity p name' options' = identity p name options ->
  create k l name' options' w2 = (Ok c, w2) /\
  exists p2, w_providers w2 !! l = Some p2 /\ config p2 = config p /\
             cache k p2 !! metricKey p name options = Some c.
Proof.
  intros Hl Hc Hr Hid.
  destruct (create_Ok_cached _ _ _ _ _ _ _ _ Hl Hc) as (p1 & Hl1 & Hcfg1 & Hc1).
  destruct (cached_forever _ _ _ _ _ _ _ Hl1 Hc1 Hr) as (p2 & Hl2 & Hcfg2 & Hc2).
  split.
  - apply (create_hit k l p2); [assumption|].
    rewrite (metricKey_of_identity p p2 name name' options options');
      [assumption | congruence | assumption].
  - exists p2. split; [assumption|]. split; [congruence | assumption].
Qed.

(** C9. The key is not injective over identities: the overrides
    ("a", "b_c") and ("a_b", "c") give distinct identities and the same
    key, so that a call for the second identity returns the instance that
    was created for the first. *)
Theorem C9_metricKey_not_injective (p : prometheusProvider) (name : string) :
  identity p name options_a_bc <> identity p name options_ab_c /\
  metricKey p name options_a_bc = metricKey p name options_ab_c /\
  forall (k : Kind) (l : loc) (w w1 w2 : World) (c : loc),
    w_providers w !! l = Some p ->
    create k l name options_a_bc w = (Ok c, w1) ->
    reachable w1 w2 ->
    create k l name options_ab_c w2 = (Ok c, w2).
Proof.
  split; [|split].
  - unfold identity, namespace, subsystem. simpl. congruence.
  - reflexivity.
  - intros k l w w1 w2 c Hl Hc Hr.
    destruct (create_Ok_cached _ _ _ _ _ _ _ _ Hl Hc) as (p1 & Hl1 & Hcfg1 & Hc1).
    destruct (cached_forever _ _ _ _ _ _ _ Hl1 Hc1 Hr) as (p2 & Hl2 & Hcfg2 & Hc2).
    apply (create_hit k l p2); [assumption|].
    replace (metricKey p2 name options_ab_c) with (metricKey p name options_a_bc);
      [assumption|reflexivity].
Qed.

(** C7. The namespace, respectively the subsystem, that forms a metric's
    identity and its key is the override of the options when that override
    is not empty, and the provider's configured default otherwise. *)
Theorem C7_resolved_namespace_subsystem
        (p : prometheusProvider) (name : string) (options : Options) :
  let ns := if decide (Namespace options = "")
            then PrometheusConfig.Namespace (config p) else Namespace options in
  let sub := if decide (Subsystem options = "")
             then PrometheusConfig.Subsystem (config p) else Subsystem options in
  namespace p options = ns /\
  subsystem p options = sub /\
  identity p name options = (ns, sub, name) /\
  metricKey p name options = ns +:+ "_" +:+ sub +:+ "_" +:+ name.
Proof.
  unfold identity, metricKey, namespace, subsystem. simpl.
  destruct (decide (Namespace options = "")), (decide (Subsystem options = ""));
    repeat case_decide; try contradiction; auto.
Qed.

(** ** The no-op provider *)

(** C8. Every operation of the no-op backend (the provider's six methods,
    the methods of its counter, gauge, histogram and summary, and those of
    its timer) returns for all arguments, leaves the world as it found it,
    and returns the zero value of its result type; [Start] and [Stop]
    return the nil error. *)
Theorem C8_noop_backend_total_and_inert
        (p : noopProvider) (c : noopCounter) (g : noopGauge) (h : noopHistogram)
        (s : noopSummary) (t : noopTimer)
        (name : string) (options : Options) (ctx : context_Context)
        (value : float64) (lvs : list string) (w : World) :
  (noopProvider_Counter p name options w = (Ok mk_noopCounter, w) /\
   noopProvider_Gauge p name options w = (Ok mk_noopGauge, w) /\
   noopProvider_Histogram p name options w = (Ok mk_noopHistogram, w) /\
   noopProvider_Summary p name options w = (Ok mk_noopSummary, w) /\
   noopProvider_Start p ctx w = (Ok None, w) /\
   noopProvider_Stop p ctx w = (Ok None, w)) /\
  (noopCounter_Inc c lvs w = (Ok tt, w) /\
   noopCounter_Add c value lvs w = (Ok tt, w)) /\
  (noopGauge_Set g value lvs w = (Ok tt, w) /\
   noopGauge_Inc g lvs w = (Ok tt, w) /\
   noopGauge_Dec g lvs w = (Ok tt, w) /\
   noopGauge_Add g value lvs w = (Ok tt, w) /\
   noopGauge_Sub g value lvs w = (Ok tt, w)) /\
  (noopHistogram_Observe h value lvs w = (Ok tt, w) /\
   noopHistogram_Timer h lvs w = (Ok (mk_noopTimer zero_Time), w)) /\
  noopSummary_Observe s value lvs w = (Ok tt, w) /\
  (noopTimer_ObserveDuration t w = (Ok tt, w) /\
   noopTimer_Stop t w = (Ok 0, w)) /\
  (Provider_Start (Provider_noop p) ctx w = (Ok None, w) /\
   Provider_Stop (Provider_noop p) ctx w = (Ok None, w)).
Proof. repeat split. Qed.

(** ** The facade and [NewMetrics] *)

Lemma applyOptions_loop_fold (opts : list Option) (o : Options) :
  applyOptions_loop opts o = fold_left (fun o modifier => modifier o) opts o.
Proof. revert o. induction opts as [|opt opts IH]; intros o; simpl; [reflexivity | apply IH]. Qed.

Lemma applyOptions_Resolve (opts : list Option) : applyOptions opts = spec_Resolve opts.
Proof. apply applyOptions_loop_fold. Qed.

(** C5. Over any provider, each of the four entry points of the facade is
    the provider's method of the same kind applied to the name and to the
    options resolved from the modifiers over the defaults: same result,
    same effect on the world. The facade adds nothing of its own: the
    logger it also holds has no influence. *)
Theorem C5_facade_delegates {P : Type} `{!Provider P}
        (pr : P) (lg lg' : Logger) (name : string) (modifiers : list Option) :
  let m := mk_metricsImpl pr lg in
  (metricsImpl_Counter m name modifiers = Provider_Counter pr name (spec_Resolve modifiers) /\
   metricsImpl_Gauge m name modifiers = Provider_Gauge pr name (spec_Resolve modifiers) /\
   metricsImpl_Histogram m name modifiers
     = Provider_Histogram pr name (spec_Resolve modifiers) /\
   metricsImpl_Summary m name modifiers = Provider_Summary pr name (spec_Resolve modifiers)) /\
  (metricsImpl_Counter (mk_metricsImpl pr lg') name modifiers
     = metricsImpl_Counter m name modifiers /\
   metricsImpl_Gauge (mk_metricsImpl pr lg') name modifiers
     = metricsImpl_Gauge m name modifiers /\
   metricsImpl_Histogram (mk_metricsImpl pr lg') name modifiers
     = metricsImpl_Histogram m name modifiers /\
   metricsImpl_Summary (mk_metricsImpl pr lg') name modifiers
     = metricsImpl_Summary m name modifiers).
Proof.
  simpl. unfold metricsImpl_Counter, metricsImpl_Gauge, metricsImpl_Histogram,
    metricsImpl_Summary. simpl. rewrite applyOptions_Resolve. repeat split.
Qed.

(** What [NewMetrics] does with a provider name it does not know. *)
Lemma NewMetrics_unknown (cfg : Config.t) (lg : Logger) (w : World) :
  Config.Provider cfg <> "prometheus" ->
  Config.Provider cfg <> "noop" ->
  NewMetrics (mkParams cfg lg) w =
  (Ok (mkResult (mk_metricsImpl (Provider_noop newNoopProvider) lg)
                (Provider_noop newNoopProvider), None),
   set_log (w_log w ++ [mkLogEntry lg LevelWarn "unknown metrics provider, using noop"
                                   [logx_String "provider" (Config.Provider cfg)]]) w).
Proof.
  intros H1 H2. unfold NewMetrics. simpl.
  destruct (decide (Config.Provider cfg = "prometheus")); [contradiction|].
  destruct (decide (Config.Provider cfg = "noop")); [contradiction|].
  reflexivity.
Qed.

(** C4. Given a provider name that is neither "prometheus" nor "noop",
    [NewMetrics] returns without an error and without a panic, with the
    no-op provider behind both the facade and the [Provider] it returns,
    having logged one warning that carries the unknown name; every later
    call through the facade, on the metrics it hands out, and on the
    provider's lifecycle returns and leaves the world alone. *)
Theorem C4_unknown_provider_falls_back_to_noop
        (cfg : Config.t) (lg : Logger) (w : World) :
  Config.Provider cfg <> "prometheus" ->
  Config.Provider cfg <> "noop" ->
  exists r : Result,
    NewMetrics (mkParams cfg lg) w =
      (Ok (r, None),
       set_log (w_log w ++ [mkLogEntry lg LevelWarn "unknown metrics provider, using noop"
                                       [logx_String "provider" (Config.Provider cfg)]]) w) /\
    Result_Provider r = Provider_noop newNoopProvider /\
    provider (Result_Metrics r) = Provider_noop newNoopProvider /\
    forall (name : string) (modifiers : list Option) (ctx : context_Context)
           (value : float64) (lvs : list string) (w' : World),
    exists (c : Counter) (g : Gauge) (h : Histogram) (s : Summary) (t : Timer),
      metricsImpl_Counter (Result_Metrics r) name modifiers w' = (Ok c, w') /\
      metricsImpl_Gauge (Result_Metrics r) name modifiers w' = (Ok g, w') /\
      metricsImpl_Histogram (Result_Metrics r) name modifiers w' = (Ok h, w') /\
      metricsImpl_Summary (Result_Metrics r) name modifiers w' = (Ok s, w') /\
      Counter_Inc c lvs w' = (Ok tt, w') /\
      Counter_Add c value lvs w' = (Ok tt, w') /\
      Gauge_Set g value lvs w' = (Ok tt, w') /\
      Gauge_Inc g lvs w' = (Ok tt, w') /\
      Gauge_Dec g lvs w' = (Ok tt, w') /\
      Gauge_Add g value lvs w' = (Ok tt, w') /\
      Gauge_Sub g value lvs w' = (Ok tt, w') /\
      Histogram_Observe h value lvs w' = (Ok tt, w') /\
      Histogram_Timer h lvs w' = (Ok t, w') /\
      Summary_Observe s value lvs w' = (Ok tt, w') /\
      Timer_ObserveDuration t w' = (Ok tt, w') /\
      Timer_Stop t w' = (Ok 0, w') /\
      Provider_Start (Result_Provider r) ctx w' = (Ok None, w') /\
      Provider_Stop (Result_Provider r) ctx w' = (Ok None, w').
Proof.
  intros H1 H2. eexists. split; [apply NewMetrics_unknown; assumption|].
  split; [reflexivity|]. split; [reflexivity|].
  intros name modifiers ctx value lvs w'.
  exists (Counter_noop mk_noopCounter), (Gauge_noop mk_noopGauge),
    (Histogram_noop mk_noopHistogram), (Summary_noop mk_noopSummary),
    (Timer_noop (mk_noopTimer zero_Time)).
  repeat split.
Qed.

(** C10. [NewMetrics] does not read [Config.Enabled]: on two
    configurations that agree on every field but [Enabled], it returns the
    same result (same provider, same facade, same error) and leaves the
    same world, from which every later call behaves alike. *)
Theorem C10_Enabled_is_never_read
        (cfg1 cfg2 : Config.t) (lg : Logger) (w : World) :
  Config.Provider cfg1 = Config.Provider cfg2 ->
  Config.Prometheus cfg1 = Config.Prometheus cfg2 ->
  NewMetrics (mkParams cfg1 lg) w = NewMetrics (mkParams cfg2 lg) w.
Proof.
  intros Hp Hc. unfold NewMetrics. simpl. rewrite Hp, Hc. reflexivity.
Qed.

(** ** The timer *)

Ltac unfold_create :=
  unfold create, prometheusProvider_Counter, prometheusProvider_Gauge,
    prometheusProvider_Histogram, prometheusProvider_Summary in *.

(** The clock never runs backwards. *)
Lemma exec_now_le c w : w_now w <= w_now (exec c w).
Proof.
  destruct c; simpl;
    try match goal with k : Kind |- _ => destruct k end;
    try match goal with p : ProviderValue |- _ => destruct p end;
    try match goal with c : Counter |- _ => destruct c end;
    try match goal with c : Gauge |- _ => destruct c end;
    try match goal with c : Histogram |- _ => destruct c end;
    try match goal with c : Summary |- _ => destruct c end;
    try match goal with c : Timer |- _ => destruct c end;
    simpl; rewrite ?after_bind_ret;
    unfold_create; unfold_api; run; repeat case_match; simplify_eq; cbn; lia.
Qed.

Lemma reachable_now_le w w' : reachable w w' -> w_now w <= w_now w'.
Proof.
  induction 1 as [w | w w1 w2 [c ->] _ IH]; [lia|].
  pose proof (exec_now_le c w). lia.
Qed.

(** Between two readings of the monotonic clock the subtraction does not
    overflow. *)
Lemma subMono_exact (t u : Z) :
  0 <= t < 2 ^ 63 -> 0 <= u < 2 ^ 63 -> subMono t u = t - u.
Proof.
  intros Ht Hu. unfold subMono, wrap64.
  rewrite Z.mod_small by lia.
  replace (t - u + 2 ^ 63 - 2 ^ 63) with (t - u) by lia.
  destruct (t - u <? 0) eqn:E1, (u <? t) eqn:E2, (0 <? t - u) eqn:E3, (t <? u) eqn:E4;
    simpl; try reflexivity; lia.
Qed.

(** What [Observe] does when the backend accepts the call. *)
Lemma Observe_accepted (h : loc) (value : float64) (lvs : list string) (w : World) hv v' :
  w_histograms w !! h = Some hv ->
  HistogramVec_Observe (hv_vec hv) value lvs = Some v' ->
  prometheusHistogramVec_Observe h value lvs w =
  (Ok tt, set_w_histograms (<[h := mkHistogramVec v' (hv_labels hv)]> (w_histograms w)) w).
Proof.
  intros Hh Hv. unfold prometheusHistogramVec_Observe. run. rewrite Hh, Hv. reflexivity.
Qed.

(** [Stop] and [ObserveDuration] between two readings of the clock. *)
Lemma timer_calls_since (h : loc) (lvs : list string) (s : Time) (w : World) :
  0 <= s < 2 ^ 63 ->
  0 <= w_now w < 2 ^ 63 ->
  let t := mkTimer h lvs s in
  let elapsed := w_now w - s in
  prometheusTimer_Stop t w =
    (_ ← prometheusHistogramVec_Observe h (Seconds elapsed) lvs; mret elapsed) w /\
  prometheusTimer_ObserveDuration t w =
    prometheusHistogramVec_Observe h (Seconds elapsed) lvs w.
Proof.
  intros Hs Hw t elapsed.
  assert (E : subMono (w_now w) s = elapsed) by (apply subMono_exact; assumption).
  split.
  - unfold prometheusTimer_Stop, time_Since. run. simpl. rewrite E. reflexivity.
  - unfold prometheusTimer_ObserveDuration, time_Since. run. simpl. rewrite E. reflexivity.
Qed.

(** C3. [Timer] captures the clock reading and returns a handle on the
    histogram and the label values, changing nothing. At any later
    reading of the same clock, [Stop] observes the seconds of
    [elapsed = now - start] into that histogram under those label values
    and returns [elapsed]; [ObserveDuration] makes the same observation
    and returns nothing. When the backend accepts the observation both
    return, with the histogram's vector updated. After a first call of
    either, a second call of either measures again from the same start,
    and so no less than the first. *)
Theorem C3_timer_measures_from_its_start
        (h : loc) (lvs : list string) (w0 w : World) :
  0 <= w_now w0 < 2 ^ 63 ->
  0 <= w_now w < 2 ^ 63 ->
  let t := mkTimer h lvs (w_now w0) in
  let elapsed := w_now w - w_now w0 in
  prometheusHistogramVec_Timer h lvs w0 = (Ok t, w0) /\
  prometheusTimer_Stop t w =
    (_ ← prometheusHistogramVec_Observe h (Seconds elapsed) lvs; mret elapsed) w /\
  prometheusTimer_ObserveDuration t w =
    prometheusHistogramVec_Observe h (Seconds elapsed) lvs w /\
  (forall hv v',
      w_histograms w !! h = Some hv ->
      HistogramVec_Observe (hv_vec hv) (Seconds elapsed) lvs = Some v' ->
      let w' := set_w_histograms
                  (<[h := mkHistogramVec v' (hv_labels hv)]> (w_histograms w)) w in
      prometheusTimer_Stop t w = (Ok elapsed, w') /\
      prometheusTimer_ObserveDuration t w = (Ok tt, w')) /\
  (forall w1 w2,
      w1 = after (prometheusTimer_Stop t) w \/
      w1 = after (prometheusTimer_ObserveDuration t) w ->
      reachable w1 w2 ->
      0 <= w_now w2 < 2 ^ 63 ->
      let elapsed2 := w_now w2 - w_now w0 in
      prometheusTimer_Stop t w2 =
        (_ ← prometheusHistogramVec_Observe h (Seconds elapsed2) lvs; mret elapsed2) w2 /\
      prometheusTimer_ObserveDuration t w2 =
        prometheusHistogramVec_Observe h (Seconds elapsed2) lvs w2 /\
      elapsed <= elapsed2).
Proof.
  intros H0 Hw t elapsed.
  destruct (timer_calls_since h lvs (w_now w0) w H0 Hw) as [Estop Eobs].
  split; [reflexivity|]. split; [exact Estop|]. split; [exact Eobs|]. split.
  - intros hv v' Hh Hv w'.
    pose proof (Observe_accepted h _ lvs w hv v' Hh Hv) as Eacc.
    subst t elapsed w'. cbv zeta in Estop, Eobs.
    rewrite Estop, Eobs. unfold mbind, M_bind. rewrite Eacc.
    split; reflexivity.
  - intros w1 w2 H1 Hr Hw2 elapsed2.
    destruct (timer_calls_since h lvs (w_now w0) w2 H0 Hw2) as [Estop2 Eobs2].
    split; [exact Estop2|]. split; [exact Eobs2|].
    assert (w_now w <= w_now w1).
    { destruct H1 as [-> | ->].
      - apply (exec_now_le (Call_Timer_Stop (Timer_prometheus t))).
      - apply (exec_now_le (Call_Timer_ObserveDuration (Timer_prometheus t))). }
    apply reachable_now_le in Hr. unfold elapsed, elapsed2. lia.
Qed.

(** ** The exposition listener *)

(** The goroutine of [Start], run on a provider that has a server: it
    returns, having logged the error unless it is [ErrServerClosed]. *)
Lemma serve_goroutine_logs (l : loc) (p : prometheusProvider) (w : World)
      (listen_result : option error) :
  w_providers w !! l = Some p ->
  is_Some (server p) ->
  serve_goroutine l listen_result w =
  (Ok tt,
   match listen_result with
   | Some err =>
       if decide (err ≠ ErrServerClosed)
       then set_log (w_log w ++ [mkLogEntry (logger p) LevelError
                                            "metrics HTTP server error" [logx_Err err]]) w
       else w
   | None => w
   end).
Proof.
  intros Hl [srv Hs]. unfold serve_goroutine. run. rewrite Hl, Hs.
  destruct listen_result as [err|]; [|reflexivity].
  destruct (decide (err ≠ ErrServerClosed)); reflexivity.
Qed.

(** C2, as the code has it. With a port configured and a path the mux
    accepts, [Start] returns the nil error at once, before any socket is
    bound: it logs, stores the server and starts the serving goroutine.
    Whatever [ListenAndServe] then returns in that goroutine, a failed
    bind included, the goroutine returns without a panic; an error other
    than [ErrServerClosed] is logged at level error and reaches nobody
    else. *)
Theorem C2_Start_returns_nil_and_logs_listener_errors
        (l : loc) (ctx : context_Context) (w : World) (p : prometheusProvider) :
  w_providers w !! l = Some p ->
  PrometheusConfig.Port (config p) <> 0 ->
  ServeMux_accepts (PrometheusConfig.Path (config p)) = true ->
  let addr := ":" +:+ itoa (PrometheusConfig.Port (config p)) in
  let srv := mkServer addr (PrometheusConfig.Path (config p)) in
  let w' := after (prometheusProvider_Start l ctx) w in
  prometheusProvider_Start l ctx w = (Ok None, w') /\
  w_providers w' = <[l := set_server (Some srv) p]> (w_providers w) /\
  w_goroutines w' = w_goroutines w ++ [l] /\
  w_log w' = w_log w ++
    [mkLogEntry (logger p) LevelInfo "starting metrics HTTP server"
                [logx_String "addr" addr;
                 logx_String "path" (PrometheusConfig.Path (config p))]] /\
  forall (w1 : World) (listen_result : option error),
    reachable w' w1 ->
    serve_goroutine l listen_result w1 =
    (Ok tt,
     match listen_result with
     | Some err =>
         if decide (err ≠ ErrServerClosed)
         then set_log (w_log w1 ++ [mkLogEntry (logger p) LevelError
                                               "metrics HTTP server error"
                                               [logx_Err err]]) w1
         else w1
     | None => w1
     end).
Proof.
  intros Hl Hport Hacc addr srv w'.
  assert (E : prometheusProvider_Start l ctx w =
              (Ok None,
               set_goroutines (w_goroutines w ++ [l])
                 (set_providers (<[l := set_server (Some srv) p]> (w_providers w))
                    (set_log (w_log w ++
                       [mkLogEntry (logger p) LevelInfo "starting metrics HTTP server"
                          [logx_String "addr" addr;
                           logx_String "path" (PrometheusConfig.Path (config p))]]) w)))).
  { unfold prometheusProvider_Start. run. rewrite Hl.
    destruct (decide (PrometheusConfig.Port (config p) = 0)); [contradiction|].
    cbn. rewrite Hacc. reflexivity. }
  subst w'. unfold after. rewrite E. cbn.
  split; [reflexivity|]. split; [reflexivity|]. split; [reflexivity|].
  split; [reflexivity|].
  intros w1 listen_result Hr.
  apply reachable_world_le in Hr.
  destruct (Hr l (set_server (Some srv) p)) as (p1 & Hl1 & _ & Hlg & Hsrv & _).
  { cbn. apply list_lookup_insert_eq. eapply lookup_lt_Some; eassumption. }
  rewrite (serve_goroutine_logs l p1 w1 listen_result Hl1).
  - simpl in Hlg. rewrite <- Hlg. reflexivity.
  - apply Hsrv. simpl. eauto.
Qed.


(** * More of the provider: creation, instances, lifecycle *)

(** ** What a create-or-retrieve call does *)

(** The four methods are one: a nil provider panics; a cached key is
    returned; a fresh key is registered, which panics when the registry
    refuses, and otherwise yields [created]. *)
Lemma create_effect k l name options w :
  create k l name options w =
  match w_providers w !! l with
  | None => (Panic "invalid memory address or nil pointer dereference", w)
  | Some p =>
      match cache k p !! metricKey p name options with
      | Some c => (Ok c, w)
      | None =>
          match register_new k p name options with
          | None => (Panic "MustRegister: registration failed", w)
          | Some reg => (Ok (store_length k w), created k l p reg name options w)
          end
      end
  end.
Proof.
  destruct k; simpl;
    [unfold prometheusProvider_Counter | unfold prometheusProvider_Gauge
    |unfold prometheusProvider_Histogram | unfold prometheusProvider_Summary];
    run;
    (destruct (w_providers w !! l) as [p|]; [|reflexivity]);
    simpl;
    match goal with |- context [match ?m !! ?key with _ => _ end] =>
      destruct (m !! key) as [c|]; [reflexivity|] end;
    match goal with |- context [match ?r with Some _ => _ | None => _ end] =>
      destruct r as [reg|]; [|reflexivity] end;
    unfold created; cbn; rewrite list_insert_insert_eq; reflexivity.
Qed.

(** ** How a step changes the maps, the stores and the servers *)

Lemma entry_same w w' :
  w_providers w' = w_providers w -> forall l k key, entry w' l k key = entry w l k key.
Proof. intros E l k key. unfold entry. rewrite E. reflexivity. Qed.

Lemma entry_new w w' p0 :
  w_providers w' = w_providers w ++ [p0] ->
  (forall k, cache k p0 = ∅) ->
  forall l k key, entry w' l k key = entry w l k key.
Proof.
  intros E H0 l k key. unfold entry. rewrite E.
  destruct (w_providers w !! l) as [p|] eqn:Hl.
  - rewrite (lookup_app_l_Some _ _ _ _ Hl). reflexivity.
  - apply lookup_ge_None in Hl. rewrite lookup_app_r by assumption.
    destruct ([p0] !! (l - length (w_providers w))%nat) as [p|] eqn:Hp; [|reflexivity].
    apply list_elem_of_lookup_2, list_elem_of_singleton in Hp. subst p.
    simpl. rewrite H0. apply lookup_empty.
Qed.

Lemma entry_set_server w w' l0 p s :
  w_providers w !! l0 = Some p ->
  w_providers w' = <[l0 := set_server s p]> (w_providers w) ->
  forall l k key, entry w' l k key = entry w l k key.
Proof.
  intros Hl0 E l k key. unfold entry, loc in *. rewrite E.
  destruct (decide (l = l0)) as [->|Hne].
  - rewrite list_lookup_insert_eq by (eapply lookup_lt_Some; eassumption).
    rewrite Hl0. simpl. destruct k; reflexivity.
  - rewrite list_lookup_insert_ne by congruence. reflexivity.
Qed.

Ltac solve_entry :=
  first
    [ apply entry_same; reflexivity
    | eapply entry_new; [reflexivity | intros []; reflexivity]
    | eapply entry_set_server; [eassumption | reflexivity] ].

(** A create-or-retrieve call leaves every map as it is, or it is a
    creation. *)
Lemma create_entries k l name options w :
  (forall l' k' key, entry (after (create k l name options) w) l' k' key = entry w l' k' key) \/
  (exists p reg,
      w_providers w !! l = Some p /\
      cache k p !! metricKey p name options = None /\
      register_new k p name options = Some reg /\
      after (create k l name options) w = created k l p reg name options w).
Proof.
  unfold after. rewrite create_effect.
  destruct (w_providers w !! l) as [p|] eqn:Hl; [|left; reflexivity].
  destruct (cache k p !! metricKey p name options) as [c|] eqn:Hc; [left; reflexivity|].
  destruct (register_new k p name options) as [reg|] eqn:Hr; [|left; reflexivity].
  right. exists p, reg. auto.
Qed.

(** Every step leaves every map as it is, or it is a creation. *)
Lemma exec_entries c w :
  (forall l k key, entry (exec c w) l k key = entry w l k key) \/
  (exists k l p reg name options,
      w_providers w !! l = Some p /\
      cache k p !! metricKey p name options = None /\
      register_new k p name options = Some reg /\
      exec c w = created k l p reg name options w).
Proof.
  assert (Hcreate : forall k l name options,
             (forall l' k' key,
                 entry (after (create k l name options) w) l' k' key = entry w l' k' key) \/
             (exists k0 l0 p reg name0 options0,
                 w_providers w !! l0 = Some p /\
                 cache k0 p !! metricKey p name0 options0 = None /\
                 register_new k0 p name0 options0 = Some reg /\
                 after (create k l name options) w = created k0 l0 p reg name0 options0 w)).
  { intros k l name options.
    destruct (create_entries k l name options w) as [H|(p & reg & H)]; [left; exact H|].
    right. exists k, l, p, reg, name, options. exact H. }
  destruct c; simpl;
    try (apply Hcreate);
    try match goal with p : ProviderValue |- _ => destruct p end;
    try match goal with c : Counter |- _ => destruct c end;
    try match goal with c : Gauge |- _ => destruct c end;
    try match goal with c : Histogram |- _ => destruct c end;
    try match goal with c : Summary |- _ => destruct c end;
    try match goal with c : Timer |- _ => destruct c end;
    simpl; rewrite ?after_bind_ret;
    try (apply (Hcreate KCounter));
    try (apply (Hcreate KGauge));
    try (apply (Hcreate KHistogram));
    try (apply (Hcreate KSummary));
    left; unfold_api; run; repeat case_match; simplify_eq; cbn; solve_entry.
Qed.

Lemma fmap_lookup_app {A B} (f : A -> B) (l : list A) (x : A) (i : nat) (b : B) :
  f <$> l !! i = Some b -> f <$> (l ++ [x]) !! i = Some b.
Proof.
  destruct (l !! i) as [a|] eqn:E; [|discriminate].
  rewrite (lookup_app_l_Some _ _ _ _ E). trivial.
Qed.

Lemma fmap_lookup_insert {A B} (f : A -> B) (l : list A) (i j : nat) (x y : A) :
  l !! j = Some x -> f y = f x -> f <$> (<[j := y]> l) !! i = f <$> l !! i.
Proof.
  intros Hj Hf. destruct (decide (i = j)) as [->|Hne].
  - rewrite list_lookup_insert_eq by (eapply lookup_lt_Some; eassumption).
    rewrite Hj. simpl. congruence.
  - rewrite list_lookup_insert_ne by congruence. reflexivity.
Qed.

Ltac solve_labels :=
  first
    [ assumption
    | apply fmap_lookup_app; assumption
    | erewrite fmap_lookup_insert; [eassumption | eassumption | reflexivity] ].

(** A step keeps every allocated cell, with the labels it was declared
    with. *)
Lemma exec_labels c0 w k c ls :
  cell_labels k w c = Some ls -> cell_labels k (exec c0 w) c = Some ls.
Proof.
  intros H.
  destruct c0; simpl;
    try match goal with k : Kind |- context [create k] => destruct k end;
    try match goal with p : ProviderValue |- _ => destruct p end;
    try match goal with c : Counter |- _ => destruct c end;
    try match goal with c : Gauge |- _ => destruct c end;
    try match goal with c : Histogram |- _ => destruct c end;
    try match goal with c : Summary |- _ => destruct c end;
    try match goal with c : Timer |- _ => destruct c end;
    simpl; rewrite ?after_bind_ret;
    unfold_create; unfold_api; unfold loc in *; run; repeat case_match; simplify_eq;
    destruct k; cbn in *; solve_labels.
Qed.

Lemma reachable_labels w w' k c ls :
  reachable w w' -> cell_labels k w c = Some ls -> cell_labels k w' c = Some ls.
Proof.
  induction 1 as [w | w w1 w2 [c0 ->] _ IH]; [trivial|].
  intros H. apply IH. apply exec_labels. exact H.
Qed.

(** ** What a creation leaves *)

Lemma cache_set_cache k k' m p :
  cache k' (set_cache k m p) = if decide (k' = k) then m else cache k' p.
Proof. destruct k, k'; reflexivity. Qed.

Lemma cache_set_registry k reg p : cache k (set_registry reg p) = cache k p.
Proof. destruct k; reflexivity. Qed.

Lemma providers_alloc k p name options w :
  w_providers (alloc k p name options w) = w_providers w.
Proof. destruct k; reflexivity. Qed.

Lemma cell_labels_ge k w c : cell_labels k w c = None <-> (store_length k w <= c)%nat.
Proof.
  destruct k; simpl; rewrite fmap_None; apply lookup_ge_None.
Qed.

Lemma cell_labels_created k l p reg name options w k' c :
  cell_labels k' (created k l p reg name options w) c =
  if decide (k' = k /\ c = store_length k w) then Some (Labels options)
  else cell_labels k' w c.
Proof.
  destruct (decide (k' = k /\ c = store_length k w)) as [[-> ->]|Hne].
  - destruct k; cbn; rewrite list_lookup_middle; reflexivity.
  - destruct (decide (k' = k)) as [->|Hk].
    + assert (Hc : c <> store_length k w) by tauto.
      destruct k; cbn in *;
        match goal with |- _ <$> (?s ++ _) !! _ = _ =>
          destruct (decide (c < length s)%nat) as [Hlt|Hge];
          [rewrite lookup_app_l by assumption; reflexivity
          |rewrite !(proj2 (lookup_ge_None _ _)); [reflexivity| lia |];
           rewrite length_app; simpl; lia] end.
    + destruct k, k'; try congruence; reflexivity.
Qed.

Lemma entry_created k l p reg name options w l' k' key :
  w_providers w !! l = Some p ->
  entry (created k l p reg name options w) l' k' key =
  if decide (l' = l /\ k' = k /\ key = metricKey p name options)
  then Some (store_length k w) else entry w l' k' key.
Proof.
  intros Hl. unfold entry, created, loc in *. cbn.
  destruct (decide (l' = l)) as [->|Hl'].
  - rewrite list_lookup_insert_eq by (eapply lookup_lt_Some; eassumption).
    rewrite Hl. simpl. rewrite cache_set_cache.
    destruct (decide (k' = k)) as [->|Hk].
    + destruct (decide (key = metricKey p name options)) as [->|Hkey].
      * rewrite lookup_insert_eq. rewrite decide_True by auto. reflexivity.
      * rewrite lookup_insert_ne by congruence. rewrite ?cache_set_registry.
        rewrite decide_False by tauto. reflexivity.
    + rewrite cache_set_registry. rewrite decide_False by tauto. reflexivity.
  - rewrite list_lookup_insert_ne by congruence.
    rewrite decide_False by tauto. reflexivity.
Qed.

(** ** Two invariants of the maps *)

Lemma initial_world_invariants t :
  instances_allocated (initial_world t) /\ no_sharing (initial_world t).
Proof.
  split.
  - intros l k key c H. unfold entry in H. simpl in H. destruct l; discriminate.
  - intros k l1 l2 key1 key2 c H. unfold entry in H. simpl in H.
    destruct l1; discriminate.
Qed.

Lemma exec_invariants c w :
  instances_allocated w /\ no_sharing w ->
  instances_allocated (exec c w) /\ no_sharing (exec c w).
Proof.
  intros [Ha Hs].
  destruct (exec_entries c w)
    as [Hsame | (k & l & p & reg & name & options & Hl & Hmiss & Hreg & E)].
  - split.
    + intros l k key c0 H. rewrite Hsame in H.
      destruct (Ha l k key c0 H) as [ls Hls]. exists ls. apply exec_labels. exact Hls.
    + intros k l1 l2 key1 key2 c0 H1 H2. rewrite Hsame in H1, H2. eauto.
  - rewrite E. split.
    + intros l' k' key c0 H. rewrite entry_created in H by assumption.
      rewrite cell_labels_created.
      destruct (decide (l' = l /\ k' = k /\ key = metricKey p name options))
        as [(-> & -> & ->)|Hne].
      * injection H as <-. rewrite decide_True by auto. eauto.
      * destruct (Ha l' k' key c0 H) as [ls Hls]. case_decide; eauto.
    + intros k' l1 l2 key1 key2 c0 H1 H2.
      rewrite entry_created in H1, H2 by assumption.
      assert (Hold : forall l' key', entry w l' k' key' = Some c0 ->
                                     k' = k -> c0 <> store_length k w).
      { intros l' key' H -> ->. destruct (Ha _ _ _ _ H) as [ls Hls].
        assert (Hn : cell_labels k w (store_length k w) = None)
          by (apply cell_labels_ge; lia).
        congruence. }
      destruct (decide (l1 = l /\ k' = k /\ key1 = metricKey p name options))
        as [(E1 & Ek1 & Ekey1)|Hne1];
        destruct (decide (l2 = l /\ k' = k /\ key2 = metricKey p name options))
          as [(E2 & Ek2 & Ekey2)|Hne2].
      * split; congruence.
      * injection H1 as <-. exfalso. eapply Hold; eauto.
      * injection H2 as <-. exfalso. eapply Hold; eauto.
      * eauto.
Qed.

Lemma reachable_invariants t w :
  reachable (initial_world t) w -> instances_allocated w /\ no_sharing w.
Proof.
  intros Hr. unfold reachable in Hr.
  apply (rtc_ind_r (R := step) (fun w => instances_allocated w /\ no_sharing w)
                   (initial_world t));
    [apply initial_world_invariants | | exact Hr].
  intros w1 w2 _ [c ->] IH. apply exec_invariants. exact IH.
Qed.

(** ** Creation, refusal, and what the instances are *)



(** A call that returned [c] left [c] in the map of the kind. *)
Lemma create_Ok_entry k l name options w c w1 :
  create k l name options w = (Ok c, w1) ->
  exists p, w_providers w !! l = Some p /\
            entry w1 l k (metricKey p name options) = Some c.
Proof.
  rewrite create_effect.
  destruct (w_providers w !! l) as [p|] eqn:Hl; [|discriminate].
  destruct (cache k p !! metricKey p name options) as [c0|] eqn:Hc.
  - intros [= <- <-]. exists p. split; [reflexivity|].
    unfold entry. rewrite Hl. exact Hc.
  - destruct (register_new k p name options) as [reg|] eqn:Hr; [|discriminate].
    intros [= <- <-]. exists p. split; [reflexivity|].
    rewrite entry_created by assumption. rewrite decide_True by auto. reflexivity.
Qed.

(** An entry stays in every later world. *)
Lemma entry_forever w w' l k key c :
  entry w l k key = Some c -> reachable w w' -> entry w' l k key = Some c.
Proof.
  unfold entry, loc in *. intros H Hr.
  destruct (w_providers w !! l) as [p|] eqn:Hl; [|discriminate]. simpl in H.
  destruct (cached_forever k l p key c w w' Hl H Hr) as (p' & Hl' & _ & Hc').
  rewrite Hl'. exact Hc'.
Qed.

(** X3. In a run of the package, a pointer that a create-or-retrieve call
    returned is allocated, and stays allocated with the same label names
    in every later world: a recording call on it never dereferences nil,
    and no later declaration changes its labels. *)
Theorem X3_instances_stay_allocated
        (t : Z) (k : Kind) (l : loc) (name : string) (options : Options)
        (w w1 : World) (c : loc) :
  reachable (initial_world t) w ->
  create k l name options w = (Ok c, w1) ->
  exists ls : list string,
    cell_labels k w1 c = Some ls /\
    forall w2, reachable w1 w2 -> cell_labels k w2 c = Some ls.
Proof.
  intros Hr Hc.
  assert (Hr1 : reachable (initial_world t) w1).
  { eapply rtc_r; [exact Hr|]. exists (Call_create k l name options).
    simpl. unfold after. rewrite Hc. reflexivity. }
  destruct (create_Ok_entry _ _ _ _ _ _ _ Hc) as (p & _ & He).
  destruct (reachable_invariants t w1 Hr1) as [Ha _].
  destruct (Ha _ _ _ _ He) as [ls Hls].
  exists ls. split; [exact Hls|].
  intros w2 Hr2. eapply reachable_labels; eassumption.
Qed.

(** X4. In a run of the package, two create-or-retrieve calls of one kind
    that return the same pointer were made on the same provider with
    arguments of the same key: no instance is shared by two keys or by two
    providers. *)
Theorem X4_one_instance_one_key
        (t : Z) (k : Kind) (l1 l2 : loc) (p1 p2 : prometheusProvider)
        (name1 name2 : string) (options1 options2 : Options)
        (w w1 w2 w3 : World) (c : loc) :
  reachable (initial_world t) w ->
  w_providers w !! l1 = Some p1 ->
  create k l1 name1 options1 w = (Ok c, w1) ->
  reachable w1 w2 ->
  w_providers w2 !! l2 = Some p2 ->
  create k l2 name2 options2 w2 = (Ok c, w3) ->
  l1 = l2 /\ metricKey p1 name1 options1 = metricKey p2 name2 options2.
Proof.
  intros Hr Hl1 Hc1 Hr12 Hl2 Hc2.
  destruct (create_Ok_entry _ _ _ _ _ _ _ Hc1) as (p1' & Hl1' & He1).
  destruct (create_Ok_entry _ _ _ _ _ _ _ Hc2) as (p2' & Hl2' & He2).
  assert (p1' = p1) by congruence. assert (p2' = p2) by congruence. subst p1' p2'.
  assert (Hs1 : step w w1).
  { exists (Call_create k l1 name1 options1). simpl. unfold after. rewrite Hc1. reflexivity. }
  assert (Hs2 : step w2 w3).
  { exists (Call_create k l2 name2 options2). simpl. unfold after. rewrite Hc2. reflexivity. }
  assert (Hr13 : reachable w1 w3) by (eapply rtc_r; eassumption).
  assert (Hr3 : reachable (initial_world t) w3).
  { eapply rtc_trans; [|exact Hr13]. eapply rtc_r; eassumption. }
  destruct (reachable_invariants t w3 Hr3) as [_ Hs].
  apply (Hs k l1 l2 _ _ c); [|exact He2].
  eapply entry_forever; eassumption.
Qed.

(** X5. The first registration wins: after a creation, a later call of the
    same kind whose arguments resolve to the same identity returns the
    created pointer whatever its options, and the wrapper still has the
    label names of the creating call. *)
Theorem X5_first_registration_wins
        (k : Kind) (l : loc) (p : prometheusProvider)
        (name name' : string) (options options' : Options) (w w1 w2 : World) (c : loc) :
  w_providers w !! l = Some p ->
  cache k p !! metricKey p name options = None ->
  create k l name options w = (Ok c, w1) ->
  reachable w1 w2 ->
  identity p name' options' = identity p name options ->
  create k l name' options' w2 = (Ok c, w2) /\
  cell_labels k w2 c = Some (Labels options).
Proof.
  intros Hl Hmiss Hc Hr Hid.
  destruct (create_Ok_cached _ _ _ _ _ _ _ _ Hl Hc) as (p1 & Hl1 & Hcfg1 & Hc1).
  destruct (cached_forever _ _ _ _ _ _ _ Hl1 Hc1 Hr) as (p2 & Hl2 & Hcfg2 & Hc2).
  split.
  - apply (create_hit k l p2); [assumption|].
    rewrite (metricKey_of_identity p p2 name name' options options');
      [assumption | congruence | assumption].
  - eapply reachable_labels; [exact Hr|].
    rewrite create_effect, Hl, Hmiss in Hc.
    destruct (register_new k p name options) as [reg0|]; [|discriminate].
    injection Hc as <- <-.
    rewrite cell_labels_created, decide_True by auto. reflexivity.
Qed.

(** ** The server of a provider *)

Lemma servers_same w w' :
  w_providers w' = w_providers w -> servers_of_config w -> servers_of_config w'.
Proof. intros E H l p. rewrite E. apply H. Qed.

Lemma servers_new w w' p0 :
  w_providers w' = w_providers w ++ [p0] -> server p0 = None ->
  servers_of_config w -> servers_of_config w'.
Proof.
  intros E H0 H l p Hl. rewrite E in Hl.
  apply lookup_app_Some in Hl as [Hl|[_ Hl]]; [eapply H; eassumption|].
  apply list_elem_of_lookup_2, list_elem_of_singleton in Hl. subst p. left. exact H0.
Qed.

Lemma servers_insert w w' l0 p' :
  w_providers w' = <[l0 := p']> (w_providers w) -> server_of_config p' ->
  servers_of_config w -> servers_of_config w'.
Proof.
  intros E H' H l p Hl. rewrite E in Hl. unfold loc in *.
  destruct (decide (l = l0)) as [->|Hne].
  - apply list_lookup_insert_Some in Hl as [(_ & <- & _)|[? _]]; [exact H'|congruence].
  - rewrite list_lookup_insert_ne in Hl by congruence. eapply H; eassumption.
Qed.

Lemma create_servers k l name options w :
  servers_of_config w -> servers_of_config (after (create k l name options) w).
Proof.
  intros H. unfold after. rewrite create_effect.
  destruct (w_providers w !! l) as [p|] eqn:Hl; [|exact H].
  destruct (cache k p !! metricKey p name options) as [c|]; [exact H|].
  destruct (register_new k p name options) as [reg|]; [|exact H].
  simpl. eapply servers_insert; [unfold created; cbn; reflexivity| |exact H].
  specialize (H l p Hl). destruct k; exact H.
Qed.

Ltac solve_servers :=
  first
    [ assumption
    | eapply servers_same; [reflexivity | assumption]
    | eapply servers_new; [reflexivity | reflexivity | assumption]
    | eapply servers_insert;
      [reflexivity | right; split; [assumption | reflexivity] | assumption] ].

(** A step keeps the servers as [Start] builds them. *)
Lemma exec_servers c w : servers_of_config w -> servers_of_config (exec c w).
Proof.
  intros H.
  destruct c; simpl;
    try (apply create_servers; exact H);
    try match goal with p : ProviderValue |- _ => destruct p end;
    try match goal with c : Counter |- _ => destruct c end;
    try match goal with c : Gauge |- _ => destruct c end;
    try match goal with c : Histogram |- _ => destruct c end;
    try match goal with c : Summary |- _ => destruct c end;
    try match goal with c : Timer |- _ => destruct c end;
    simpl; rewrite ?after_bind_ret;
    try (apply (create_servers KCounter); exact H);
    try (apply (create_servers KGauge); exact H);
    try (apply (create_servers KHistogram); exact H);
    try (apply (create_servers KSummary); exact H);
    unfold_api; run; repeat case_match; simplify_eq; cbn; solve_servers.
Qed.

Lemma reachable_servers t w : reachable (initial_world t) w -> servers_of_config w.
Proof.
  intros Hr.
  apply (rtc_ind_r (R := step) servers_of_config (initial_world t)); [| |exact Hr].
  - intros l p Hl. simpl in Hl. destruct l; discriminate.
  - intros w1 w2 _ [c ->] IH. apply exec_servers. exact IH.
Qed.

Lemma reachable_servers_from w w' :
  servers_of_config w -> reachable w w' -> servers_of_config w'.
Proof.
  intros H Hr. apply (rtc_ind_r (R := step) servers_of_config w); [exact H| |exact Hr].
  intros w1 w2 _ [c ->] IH. apply exec_servers. exact IH.
Qed.

(** [Start], case by case. *)
Lemma Start_effect l ctx w :
  prometheusProvider_Start l ctx w =
  match w_providers w !! l with
  | None => (Panic "invalid memory address or nil pointer dereference", w)
  | Some p =>
      if decide (PrometheusConfig.Port (config p) = 0) then
        (Ok None,
         set_log (w_log w ++
                    [mkLogEntry (logger p) LevelInfo
                                "metrics will be exposed on main HTTP server"
                                [logx_String "path" (PrometheusConfig.Path (config p))]]) w)
      else
        let addr := ":" +:+ itoa (PrometheusConfig.Port (config p)) in
        let w1 :=
          set_log (w_log w ++
                     [mkLogEntry (logger p) LevelInfo "starting metrics HTTP server"
                                 [logx_String "addr" addr;
                                  logx_String "path" (PrometheusConfig.Path (config p))]]) w in
        if ServeMux_accepts (PrometheusConfig.Path (config p)) then
          (Ok None,
           set_goroutines (w_goroutines w ++ [l])
             (set_providers
                (<[l := set_server
                          (Some (mkServer addr (PrometheusConfig.Path (config p)))) p]>
                   (w_providers w)) w1))
        else (Panic "http: invalid pattern", w1)
  end.
Proof.
  unfold prometheusProvider_Start. run.
  destruct (w_providers w !! l) as [p|]; [|reflexivity].
  destruct (decide (PrometheusConfig.Port (config p) = 0)); [reflexivity|].
  cbn. destruct (ServeMux_accepts (PrometheusConfig.Path (config p))); reflexivity.
Qed.

(** [Stop], case by case. *)
Lemma Stop_effect l ctx w :
  prometheusProvider_Stop l ctx w =
  match w_providers w !! l with
  | None => (Panic "invalid memory address or nil pointer dereference", w)
  | Some p =>
      match server p with
      | None => (Ok None, w)
      | Some srv =>
          (Ok (Server_Shutdown srv ctx),
           set_log (w_log w ++ [mkLogEntry (logger p) LevelInfo
                                           "stopping metrics HTTP server" []]) w)
      end
  end.
Proof.
  unfold prometheusProvider_Stop. run.
  destruct (w_providers w !! l) as [p|]; [|reflexivity].
  destruct (server p); reflexivity.
Qed.

(** X6. In a run of the package, a provider configured with port 0 never
    has a server: [Start] returns nil having logged where the metrics are
    exposed, and [Stop] returns nil without logging, without a call to
    [Shutdown], and without changing anything. *)
Theorem X6_port_0_never_has_a_server
        (t : Z) (l : loc) (p : prometheusProvider) (ctx : context_Context) (w : World) :
  reachable (initial_world t) w ->
  w_providers w !! l = Some p ->
  PrometheusConfig.Port (config p) = 0 ->
  server p = None /\
  prometheusProvider_Start l ctx w =
    (Ok None,
     set_log (w_log w ++
                [mkLogEntry (logger p) LevelInfo
                            "metrics will be exposed on main HTTP server"
                            [logx_String "path" (PrometheusConfig.Path (config p))]]) w) /\
  prometheusProvider_Stop l ctx w = (Ok None, w).
Proof.
  intros Hr Hl Hport.
  assert (Hs : server p = None).
  { destruct (reachable_servers t w Hr l p Hl) as [H|[H _]]; [exact H|contradiction]. }
  split; [exact Hs|]. split.
  - rewrite Start_effect, Hl. rewrite decide_True by assumption. reflexivity.
  - rewrite Stop_effect, Hl, Hs. reflexivity.
Qed.

(** X7. In a run of the package, once [Start] has returned on a provider
    with a port, the provider keeps the server of its configuration: in
    every later world [Stop] logs, calls [Shutdown] on that server with
    the context it was given and returns what [Shutdown] returns. [Stop]
    does not forget the server, so a second [Stop] does the same. *)
Theorem X7_Stop_shuts_down_the_server_of_Start
        (t : Z) (l : loc) (p : prometheusProvider) (ctx ctx' : context_Context)
        (w w1 w2 : World) :
  reachable (initial_world t) w ->
  w_providers w !! l = Some p ->
  PrometheusConfig.Port (config p) <> 0 ->
  prometheusProvider_Start l ctx w = (Ok None, w1) ->
  reachable w1 w2 ->
  let srv := mkServer (":" +:+ itoa (PrometheusConfig.Port (config p)))
                      (PrometheusConfig.Path (config p)) in
  let w3 := set_log (w_log w2 ++ [mkLogEntry (logger p) LevelInfo
                                             "stopping metrics HTTP server" []]) w2 in
  prometheusProvider_Stop l ctx' w2 = (Ok (Server_Shutdown srv ctx'), w3) /\
  prometheusProvider_Stop l ctx' w3 =
    (Ok (Server_Shutdown srv ctx'),
     set_log (w_log w3 ++ [mkLogEntry (logger p) LevelInfo
                                      "stopping metrics HTTP server" []]) w3).
Proof.
  intros Hr Hl Hport Hstart Hr12 srv w3.
  assert (Hl1 : w_providers w1 !! l = Some (set_server (Some srv) p)).
  { rewrite Start_effect, Hl in Hstart. rewrite decide_False in Hstart by assumption.
    cbv zeta in Hstart.
    destruct (ServeMux_accepts (PrometheusConfig.Path (config p))); [|discriminate].
    injection Hstart as <-. cbn. unfold loc in *.
    apply list_lookup_insert_eq. eapply lookup_lt_Some; eassumption. }
  assert (Hr1 : reachable (initial_world t) w1).
  { eapply rtc_r; [exact Hr|]. exists (Call_Provider_Start (Provider_prometheus l) ctx).
    simpl. unfold after. rewrite Hstart. reflexivity. }
  assert (Hr2 : reachable (initial_world t) w2) by (eapply rtc_trans; eassumption).
  destruct (reachable_world_le _ _ Hr12 l _ Hl1) as (p2 & Hl2 & Hcfg & Hlg & Hsrv & _).
  simpl in Hcfg, Hlg.
  assert (Hs2 : server p2 = Some srv).
  { destruct (reachable_servers t w2 Hr2 l p2 Hl2) as [Hn|[_ Hs]].
    - destruct Hsrv as [s Hs]; [simpl; eauto|]. congruence.
    - rewrite Hs. subst srv. rewrite <- Hcfg. reflexivity. }
  assert (E : prometheusProvider_Stop l ctx' w2 = (Ok (Server_Shutdown srv ctx'), w3)).
  { rewrite Stop_effect. unfold loc in *. rewrite Hl2, Hs2. subst w3.
    rewrite <- Hlg. reflexivity. }
  split; [exact E|].
  rewrite Stop_effect. subst w3. cbn. unfold loc in *.
  rewrite Hl2, Hs2, <- Hlg. reflexivity.
Qed.


(** X9. With a port and a path that the mux refuses, [Start] panics after
    its log line and before it stores a server or starts a goroutine: the
    provider is as it was, and a [Stop] that follows on a provider without
    a server is silent. *)
Theorem X9_Start_panics_on_a_refused_path
        (l : loc) (p : prometheusProvider) (ctx ctx' : context_Context) (w : World) :
  w_providers w !! l = Some p ->
  PrometheusConfig.Port (config p) <> 0 ->
  ServeMux_accepts (PrometheusConfig.Path (config p)) = false ->
  let w1 :=
    set_log (w_log w ++
               [mkLogEntry (logger p) LevelInfo "starting metrics HTTP server"
                  [logx_String "addr" (":" +:+ itoa (PrometheusConfig.Port (config p)));
                   logx_String "path" (PrometheusConfig.Path (config p))]]) w in
  prometheusProvider_Start l ctx w = (Panic "http: invalid pattern", w1) /\
  w_providers w1 = w_providers w /\
  w_goroutines w1 = w_goroutines w /\
  (server p = None -> prometheusProvider_Stop l ctx' w1 = (Ok None, w1)).
Proof.
  intros Hl Hport Hacc w1.
  split.
  - rewrite Start_effect, Hl. rewrite decide_False by assumption.
    cbv zeta. rewrite Hacc. reflexivity.
  - split; [reflexivity|]. split; [reflexivity|].
    intros Hs. rewrite Stop_effect. subst w1. cbn. unfold loc in *.
    rewrite Hl, Hs. reflexivity.
Qed.

(** ** Recording *)



(** ** Through the facade *)

(** What a call through the interface returned, in terms of the method of
    the Prometheus provider. *)
Lemma bind_ret_Ok {A B} (m : M A) (f : A -> B) (w : World) (b : B) (w1 : World) :
  (a ← m; mret (f a)) w = (Ok b, w1) -> exists a, m w = (Ok a, w1) /\ b = f a.
Proof.
  run. destruct (m w) as [[a|r] w0]; [|discriminate].
  intros [= <- <-]. eauto.
Qed.

Lemma create_again k l p name name' options options' w w1 w2 c :
  w_providers w !! l = Some p ->
  create k l name options w = (Ok c, w1) ->
  reachable w1 w2 ->
  identity p name' options' = identity p name options ->
  create k l name' options' w2 = (Ok c, w2).
Proof.
  intros Hl Hc Hr Hid.
  destruct (create_Ok_cached _ _ _ _ _ _ _ _ Hl Hc) as (p1 & Hl1 & Hcfg1 & Hc1).
  destruct (cached_forever _ _ _ _ _ _ _ Hl1 Hc1 Hr) as (p2 & Hl2 & Hcfg2 & Hc2).
  apply (create_hit k l p2); [assumption|].
  rewrite (metricKey_of_identity p p2 name name' options options');
    [assumption | congruence | assumption].
Qed.

(** X12. Through the facade over a Prometheus provider, declaring a metric
    again gives the handle of the first declaration: for each of the four
    kinds, once an entry point has returned a handle, a later call with
    the same name and with modifiers that resolve to the same namespace
    and subsystem returns the same handle and changes nothing, whatever
    the other modifiers and whichever logger the facade holds. *)
Theorem X12_facade_returns_the_first_handle
        (l : loc) (p : prometheusProvider) (lg lg' : Logger) (name : string)
        (modifiers modifiers' : list Option) (w w1 w2 : World) :
  w_providers w !! l = Some p ->
  reachable w1 w2 ->
  identity p name (applyOptions modifiers') = identity p name (applyOptions modifiers) ->
  let m := mk_metricsImpl (Provider_prometheus l) lg in
  let m' := mk_metricsImpl (Provider_prometheus l) lg' in
  (forall c, metricsImpl_Counter m name modifiers w = (Ok c, w1) ->
             metricsImpl_Counter m' name modifiers' w2 = (Ok c, w2)) /\
  (forall g, metricsImpl_Gauge m name modifiers w = (Ok g, w1) ->
             metricsImpl_Gauge m' name modifiers' w2 = (Ok g, w2)) /\
  (forall h, metricsImpl_Histogram m name modifiers w = (Ok h, w1) ->
             metricsImpl_Histogram m' name modifiers' w2 = (Ok h, w2)) /\
  (forall s, metricsImpl_Summary m name modifiers w = (Ok s, w1) ->
             metricsImpl_Summary m' name modifiers' w2 = (Ok s, w2)).
Proof.
  intros Hl Hr Hid m m'.
  unfold metricsImpl_Counter, metricsImpl_Gauge, metricsImpl_Histogram,
    metricsImpl_Summary. simpl.
  repeat split; intros x H; apply bind_ret_Ok in H as (a & Ha & ->);
    unfold mbind, M_bind.
  - pose proof (create_again KCounter l p name name _ _ w w1 w2 a Hl Ha Hr Hid) as E.
    cbn [create] in E. rewrite E. reflexivity.
  - pose proof (create_again KGauge l p name name _ _ w w1 w2 a Hl Ha Hr Hid) as E.
    cbn [create] in E. rewrite E. reflexivity.
  - pose proof (create_again KHistogram l p name name _ _ w w1 w2 a Hl Ha Hr Hid) as E.
    cbn [create] in E. rewrite E. reflexivity.
  - pose proof (create_again KSummary l p name name _ _ w w1 w2 a Hl Ha Hr Hid) as E.
    cbn [create] in E. rewrite E. reflexivity.
Qed.

(** ** [NewMetrics], the hooks and the configuration *)

(** X13. [NewMetrics] never returns an error. When it returns, the facade
    holds the very provider that the result exposes, and the logger of the
    parameters. With "noop" it changes nothing. With "prometheus" the
    provider is a new one: a fresh pointer to a provider with the
    configuration and the logger of the parameters, no server and four
    empty maps; nothing is logged. It panics only with "prometheus", when
    the registry refuses a default collector, and then changes nothing. *)
Theorem X13_NewMetrics_outcomes (params : Params) (w : World) :
  (forall r e w', NewMetrics params w = (Ok (r, e), w') ->
     e = None /\
     provider (Result_Metrics r) = Result_Provider r /\
     metrics_logger (Result_Metrics r) = Params_Logger params /\
     (Config.Provider (Params_Config params) = "noop" ->
      Result_Provider r = Provider_noop newNoopProvider /\ w' = w) /\
     (Config.Provider (Params_Config params) = "prometheus" ->
      exists p0,
        Result_Provider r = Provider_prometheus (length (w_providers w)) /\
        w_providers w' = w_providers w ++ [p0] /\
        config p0 = Config.Prometheus (Params_Config params) /\
        logger p0 = Params_Logger params /\
        server p0 = None /\
        (forall k, cache k p0 = ∅) /\
        w_log w' = w_log w)) /\
  (forall reason w', NewMetrics params w = (Panic reason, w') ->
     Config.Provider (Params_Config params) = "prometheus" /\ w' = w).
Proof.
  unfold NewMetrics, newPrometheusProvider. run.
  split.
  - intros r e w'.
    repeat case_decide; repeat case_match; intros; simplify_eq; cbn;
      (split; [reflexivity|]); (split; [reflexivity|]); (split; [reflexivity|]);
      (split; [intros; try congruence; split; reflexivity|]);
      intros; try congruence;
      eexists; (split; [reflexivity|]); (split; [reflexivity|]);
      (split; [reflexivity|]); (split; [reflexivity|]); (split; [reflexivity|]);
      (split; [intros []; reflexivity|reflexivity]).
  - intros reason w'.
    repeat case_decide; repeat case_match; intros; simplify_eq; auto.
Qed.

(** X14. [Start] of the Prometheus provider and the [OnStart] hook never
    return an error: a listener that fails is not their concern. The
    [OnStop] hook returns an error only when the provider has a server
    whose [Shutdown] returned it. *)
Theorem X14_only_Shutdown_returns_an_error
        (pv : ProviderValue) (lg : Logger) (ctx : context_Context) (w w' : World) :
  (forall l e, prometheusProvider_Start l ctx w = (Ok e, w') -> e = None) /\
  (forall e, lifecycle_OnStart pv lg ctx w = (Ok e, w') -> e = None) /\
  (forall e, lifecycle_OnStop pv lg ctx w = (Ok (Some e), w') ->
     exists l p srv,
       pv = Provider_prometheus l /\
       w_providers w !! l = Some p /\
       server p = Some srv /\
       Server_Shutdown srv ctx = Some e).
Proof.
  split; [|split].
  - intros l e. rewrite Start_effect. cbv zeta.
    repeat case_match; intros; simplify_eq; reflexivity.
  - intros e. unfold lifecycle_OnStart. destruct pv as [l|n]; simpl.
    + run. rewrite Start_effect. cbv zeta. cbn.
      repeat case_match; intros; simplify_eq; reflexivity.
    + unfold_api. run. intros; simplify_eq; reflexivity.
  - intros e. unfold lifecycle_OnStop. destruct pv as [l|n]; simpl.
    + run. rewrite Stop_effect. cbn. unfold loc in *.
      destruct (w_providers w !! l) as [p|] eqn:Hl; [|discriminate].
      destruct (server p) as [srv|] eqn:Hs; [|discriminate].
      intros [= He _]. exists l, p, srv. auto.
    + unfold_api. run. discriminate.
Qed.

(** X15. Two option constructors that write different fields commute, and
    a constructor followed by one that writes the same field has no
    effect, wherever the two stand in the list of modifiers. *)
Theorem X15_modifiers_commute_or_override
        (m1 m2 : Modifier) (before after : list Modifier) :
  (field_of m1 <> field_of m2 ->
   applyOptions (modifier_fn <$> (before ++ m1 :: m2 :: after)) =
   applyOptions (modifier_fn <$> (before ++ m2 :: m1 :: after))) /\
  (field_of m1 = field_of m2 ->
   applyOptions (modifier_fn <$> (before ++ m1 :: m2 :: after)) =
   applyOptions (modifier_fn <$> (before ++ m2 :: after))).
Proof.
  unfold applyOptions. rewrite !fmap_app, !applyOptions_loop_app. simpl.
  generalize (applyOptions_loop (modifier_fn <$> before)
                (mkOptions "" [] DefaultBuckets DefaultObjectives "" "")).
  intros o. split; intros H; f_equal;
    destruct m1, m2; simpl in H; try congruence; reflexivity.
Qed.

(** X16. [Sanitize] returns a configuration equal to the one it is given;
    hence [NewConfig] returns the same with and without it. A [Bind] that
    fails makes [NewConfig] return its error with the configuration as
    [Bind] left it; a [Bind] that succeeds makes it return nil with the
    bound configuration. *)
Theorem X16_NewConfig_returns_what_Bind_left (loader : Loader) (c : Config.t) :
  Config_Sanitize c = c /\
  NewConfig_sanitized loader = NewConfig loader /\
  NewConfig loader = loader zero_Config.
Proof.
  split; [destruct c; reflexivity|].
  unfold NewConfig_sanitized, NewConfig.
  destruct (loader zero_Config) as [cfg [e|]]; repeat split.
  destruct cfg; reflexivity.
Qed.

(** X17. [ConfigSummary] has exactly the four keys "enabled", "provider",
    "prom_path" and "prom_port", and two configurations have the same
    summary exactly when they agree on the four values behind them: the
    namespace, the subsystem and the two collector switches never show. *)
Theorem X17_ConfigSummary_shows_four_fields (c c' : Config.t) :
  dom (Config_ConfigSummary c) =
    ({["enabled"; "provider"; "prom_path"; "prom_port"]} : gset string) /\
  (Config_ConfigSummary c = Config_ConfigSummary c' <->
   Config.Enabled c = Config.Enabled c' /\
   Config.Provider c = Config.Provider c' /\
   PrometheusConfig.Path (Config.Prometheus c) = PrometheusConfig.Path (Config.Prometheus c') /\
   PrometheusConfig.Port (Config.Prometheus c) = PrometheusConfig.Port (Config.Prometheus c')).
Proof.
  split.
  - unfold Config_ConfigSummary. rewrite !dom_insert_L, dom_empty_L. set_solver.
  - split.
    + intros E.
      assert (He := f_equal (fun m => m !! "enabled") E).
      assert (Hp := f_equal (fun m => m !! "provider") E).
      assert (Hpath := f_equal (fun m => m !! "prom_path") E).
      assert (Hport := f_equal (fun m => m !! "prom_port") E).
      unfold Config_ConfigSummary in He, Hp, Hpath, Hport. simpl in *.
      rewrite lookup_insert_eq in He.
      rewrite lookup_insert_ne, lookup_insert_eq in Hp by discriminate.
      rewrite !(lookup_insert_ne _ "enabled"), !(lookup_insert_ne _ "provider"),
        !lookup_insert_eq in Hpath by discriminate.
      rewrite !(lookup_insert_ne _ "enabled"), !(lookup_insert_ne _ "provider"),
        !(lookup_insert_ne _ "prom_path"), !lookup_insert_eq in Hport by discriminate.
      simplify_eq. auto.
    + intros (He & Hp & Hpath & Hport). unfold Config_ConfigSummary.
      rewrite He, Hp, Hpath, Hport. reflexivity.
Qed.

(** X18. In a run of the package, a timer never reports a negative
    duration: the clock only advances, so whatever happens between
    [Timer] and [Stop], the duration that [Stop] returns is the advance of
    the clock since [Timer], and at least zero. *)
Theorem X18_Stop_is_never_negative
        (h : Histogram) (lvs : list string) (t : Timer) (d : Duration)
        (w0 w0' w w' : World) :
  0 <= w_now w0 < 2 ^ 63 ->
  0 <= w_now w < 2 ^ 63 ->
  Histogram_Timer h lvs w0 = (Ok t, w0') ->
  reachable w0' w ->
  Timer_Stop t w = (Ok d, w') ->
  0 <= d /\
  (forall hp, h = Histogram_prometheus hp -> d = w_now w - w_now w0).
Proof.
  intros H0 Hw Ht Hr Hs.
  destruct h as [hp|hn]; simpl in Ht; unfold_api; revert Ht; run; intros [= <- <-].
  - simpl in Hs. apply reachable_now_le in Hr.
    assert (E : d = subMono (w_now w) (w_now w0)).
    { revert Hs. unfold prometheusTimer_Stop, prometheusHistogramVec_Observe. run.
      repeat case_match; intros; simplify_eq; reflexivity. }
    rewrite subMono_exact in E by assumption.
    split; [lia|]. intros; assumption.
  - simpl in Hs. revert Hs. unfold_api. run. intros [= <- _].
    split; [lia|]. intros hp; discriminate.
Qed.

End Properties.

(** * The properties on concrete runs, over the small client *)

#[local] Existing Instance reference_client.

(** The modifiers of the package's own test of [applyOptions]. *)
Example applyOptions_three_modifiers :
  applyOptions [WithHelp "test metric"; WithLabels ["label1"; "label2"];
                WithNamespace "test"] =
  mkOptions "test metric" ["label1"; "label2"] DefaultBuckets DefaultObjectives "test" "".
Proof. reflexivity. Qed.

Example applyOptions_later_wins :
  Help (applyOptions [WithHelp "first"; WithLabels ["a"]; WithHelp "second"]) = "second".
Proof. reflexivity. Qed.

Example Seconds_of_1500_ms : Seconds 1500000000 = 1.5%float.
Proof. vm_compute. reflexivity. Qed.

Example Seconds_of_10_ms : Seconds 10000000 = 0.01%float.
Proof. vm_compute. reflexivity. Qed.

Example subMono_saturates : subMono (2 ^ 63 - 1) (- 2 ^ 63) = maxDuration.
Proof. vm_compute. reflexivity. Qed.

(** A counter and a gauge of one name: the second registration is refused
    by the registry, and [MustRegister] panics. *)
Example gauge_after_counter_panics :
  fst (create KGauge 0%nat "requests_total" options_first world_counter) =
  Panic "MustRegister: registration failed".
Proof. vm_compute. reflexivity. Qed.

(** With port 0, [Start] only logs, and [Stop] finds no server. *)
Example Start_port_0 :
  let w := after (newPrometheusProvider
                    (PrometheusConfig.mk "" "" "/metrics" 0 false false) 7%nat)
                 (initial_world 0) in
  fst (prometheusProvider_Start 0%nat 0%nat w) = Ok None /\
  w_goroutines (after (prometheusProvider_Start 0%nat 0%nat) w) = [] /\
  prometheusProvider_Stop 0%nat 0%nat w = (Ok None, w).
Proof. vm_compute. repeat split. Qed.

Lemma world_9090_provider : w_providers world_9090 !! 0%nat = Some provider_9090.
Proof. vm_compute. reflexivity. Qed.

Lemma world_counter_later_reachable : reachable world_counter world_counter_later.
Proof.
  unfold world_counter_later.
  eapply rtc_l; [eexists; reflexivity|].
  eapply rtc_l; [eexists; reflexivity|].
  apply rtc_refl.
Qed.

(** C1 on a run: the counter declared first is the one a later, different
    declaration of the same identity gets. *)
Lemma C1_same_identity_same_instance_witness :
  create KCounter 0%nat "requests_total" options_later world_counter_later
    = (Ok 0%nat, world_counter_later) /\
  exists p2, w_providers world_counter_later !! 0%nat = Some p2 /\
             config p2 = config provider_9090 /\
             cache KCounter p2 !! metricKey provider_9090 "requests_total" options_first
               = Some 0%nat.
Proof.
  apply (C1_same_identity_same_instance
           KCounter 0%nat provider_9090 "requests_total" "requests_total"
           options_first options_later world_9090 world_counter world_counter_later 0%nat).
  - exact world_9090_provider.
  - vm_compute. reflexivity.
  - exact world_counter_later_reachable.
  - vm_compute. reflexivity.
Defined.

(** C9 on a run: declared under ("a", "b_c"), found again under
    ("a_b", "c"). *)
Lemma C9_metricKey_not_injective_witness :
  let w1 := after (create KCounter 0%nat "hits" options_a_bc) world_9090 in
  create KCounter 0%nat "hits" options_ab_c w1 = (Ok 0%nat, w1).
Proof.
  intros w1.
  apply (proj2 (proj2 (C9_metricKey_not_injective provider_9090 "hits"))
           KCounter 0%nat world_9090 w1 w1 0%nat).
  - exact world_9090_provider.
  - vm_compute. reflexivity.
  - apply rtc_refl.
Defined.

(** C3 on a run: a timer taken at reading 100 and stopped 1.5 s later. *)
Lemma C3_timer_measures_from_its_start_witness :
  prometheusHistogramVec_Timer 0%nat ["GET"] world_histogram
    = (Ok (mkTimer 0%nat ["GET"] 100), world_histogram) /\
  prometheusTimer_Stop (mkTimer 0%nat ["GET"] 100) world_histogram_later =
    (_ ← prometheusHistogramVec_Observe 0%nat 1.5%float ["GET"]; mret 1500000000)
      world_histogram_later /\
  fst (prometheusTimer_Stop (mkTimer 0%nat ["GET"] 100) world_histogram_later)
    = Ok 1500000000.
Proof.
  assert (H0 : 0 <= w_now world_histogram < 2 ^ 63) by (vm_compute; split; congruence).
  assert (H1 : 0 <= w_now world_histogram_later < 2 ^ 63) by (vm_compute; split; congruence).
  pose proof (C3_timer_measures_from_its_start
                0%nat ["GET"] world_histogram world_histogram_later H0 H1) as H.
  cbv zeta in H. destruct H as (Ht & Hstop & _ & _ & _).
  split; [exact Ht|]. split; [exact Hstop|].
  vm_compute. reflexivity.
Defined.

(** C4 on a run: the provider name "datadog". *)
Lemma C4_unknown_provider_falls_back_to_noop_witness :
  exists r : Result,
    fst (NewMetrics (mkParams config_datadog 7%nat) (initial_world 100)) = Ok (r, None) /\
    Result_Provider r = Provider_noop newNoopProvider /\
    w_log (after (NewMetrics (mkParams config_datadog 7%nat)) (initial_world 100)) =
      [mkLogEntry 7%nat LevelWarn "unknown metrics provider, using noop"
                  [logx_String "provider" "datadog"]].
Proof.
  destruct (C4_unknown_provider_falls_back_to_noop
              (client := reference_client) config_datadog 7%nat (initial_world 100))
    as (r & E & Hp & _).
  - vm_compute. congruence.
  - vm_compute. congruence.
  - exists r. unfold after. rewrite E. split; [reflexivity|]. split; [exact Hp|].
    reflexivity.
Defined.

(** C10 on a run: metrics disabled, and a Prometheus provider all the
    same. *)
Lemma C10_Enabled_is_never_read_witness :
  NewMetrics (mkParams (Config.with_Enabled false config_prometheus) 7%nat)
             (initial_world 100) =
  NewMetrics (mkParams config_prometheus 7%nat) (initial_world 100) /\
  fst (NewMetrics (mkParams (Config.with_Enabled false config_prometheus) 7%nat)
                  (initial_world 100)) =
  Ok (mkResult (mk_metricsImpl (Provider_prometheus 0%nat) 7%nat)
               (Provider_prometheus 0%nat), None).
Proof.
  split.
  - apply (C10_Enabled_is_never_read
             (client := reference_client)
             (Config.with_Enabled false config_prometheus) config_prometheus
             7%nat (initial_world 100)); reflexivity.
  - vm_compute. reflexivity.
Defined.

(** C2 on a run: port 9090. *)
Lemma C2_Start_returns_nil_and_logs_listener_errors_witness :
  let w' := after (prometheusProvider_Start 0%nat 0%nat) world_9090 in
  prometheusProvider_Start 0%nat 0%nat world_9090 = (Ok None, w') /\
  w_goroutines w' = [0%nat] /\
  serve_goroutine 0%nat (Some bind_error) w' =
    (Ok tt, set_log (w_log w' ++ [mkLogEntry 7%nat LevelError "metrics HTTP server error"
                                             [logx_Err bind_error]]) w').
Proof.
  intros w'.
  pose proof (C2_Start_returns_nil_and_logs_listener_errors
                0%nat 0%nat world_9090 provider_9090 world_9090_provider) as H.
  cbv zeta in H. destruct H as (E & _ & Hg & _ & Hserve).
  - vm_compute. congruence.
  - vm_compute. reflexivity.
  - split; [exact E|]. split; [exact Hg|].
    exact (Hserve w' (Some bind_error) (rtc_refl _ _)).
Defined.

(** C2 as the specification words it fails on this run: the port is
    configured, the listener cannot bind (the goroutine that [Start]
    started receives [bind_error] from [ListenAndServe]), and [Start] has
    returned the nil error; the failure is in the log, and nowhere else. *)
Lemma C2_bind_failure_is_not_returned_by_Start :
  let w' := after (prometheusProvider_Start 0%nat 0%nat) world_9090 in
  PrometheusConfig.Port (config provider_9090) <> 0 /\
  w_goroutines w' = [0%nat] /\
  serve_goroutine 0%nat (Some bind_error) w' =
    (Ok tt, set_log (w_log w' ++ [mkLogEntry 7%nat LevelError "metrics HTTP server error"
                                             [logx_Err bind_error]]) w') /\
  fst (prometheusProvider_Start 0%nat 0%nat world_9090) = Ok None /\
  ~ (exists e : error,
        fst (prometheusProvider_Start 0%nat 0%nat world_9090) = Ok (Some e)).
Proof.
  intros w'.
  assert (E : fst (prometheusProvider_Start 0%nat 0%nat world_9090) = Ok None)
    by (vm_compute; reflexivity).
  split; [vm_compute; congruence|].
  split; [vm_compute; reflexivity|].
  split; [vm_compute; reflexivity|].
  split; [exact E|].
  intros [e He]. rewrite E in He. discriminate.
Qed.

(** * More of the provider on concrete runs *)

Lemma world_9090_reachable : reachable (initial_world 100) world_9090.
Proof.
  eapply rtc_l; [|apply rtc_refl].
  exists (Call_newPrometheusProvider config_9090 7%nat). reflexivity.
Qed.

Lemma world_port_0_reachable : reachable (initial_world 0) world_port_0.
Proof.
  eapply rtc_l; [|apply rtc_refl].
  exists (Call_newPrometheusProvider config_port_0 7%nat). reflexivity.
Qed.



Lemma X3_instances_stay_allocated_witness :
  exists ls : list string,
    cell_labels KCounter world_counter 0%nat = Some ls /\
    forall w2, reachable world_counter w2 -> cell_labels KCounter w2 0%nat = Some ls.
Proof.
  apply (X3_instances_stay_allocated
           100 KCounter 0%nat "requests_total" options_first world_9090 world_counter 0%nat).
  - exact world_9090_reachable.
  - vm_compute. reflexivity.
Defined.

Lemma X4_one_instance_one_key_witness :
  0%nat = 0%nat /\
  metricKey provider_9090 "requests_total" options_first =
  metricKey provider_counter_later "requests_total" options_later.
Proof.
  apply (X4_one_instance_one_key
           100 KCounter 0%nat 0%nat provider_9090 provider_counter_later
           "requests_total" "requests_total" options_first options_later
           world_9090 world_counter world_counter_later world_counter_later 0%nat).
  - exact world_9090_reachable.
  - exact world_9090_provider.
  - vm_compute. reflexivity.
  - exact world_counter_later_reachable.
  - vm_compute. reflexivity.
  - vm_compute. reflexivity.
Defined.

Lemma X5_first_registration_wins_witness :
  create KCounter 0%nat "requests_total" options_later world_counter_later
    = (Ok 0%nat, world_counter_later) /\
  cell_labels KCounter world_counter_later 0%nat = Some ["method"].
Proof.
  apply (X5_first_registration_wins
           KCounter 0%nat provider_9090 "requests_total" "requests_total"
           options_first options_later world_9090 world_counter world_counter_later 0%nat).
  - exact world_9090_provider.
  - vm_compute. reflexivity.
  - vm_compute. reflexivity.
  - exact world_counter_later_reachable.
  - vm_compute. reflexivity.
Defined.

Lemma X6_port_0_never_has_a_server_witness :
  server provider_port_0 = None /\
  fst (prometheusProvider_Start 0%nat 0%nat world_port_0) = Ok None /\
  prometheusProvider_Stop 0%nat 0%nat world_port_0 = (Ok None, world_port_0).
Proof.
  destruct (X6_port_0_never_has_a_server
              0 0%nat provider_port_0 0%nat world_port_0) as (H1 & H2 & H3).
  - exact world_port_0_reachable.
  - vm_compute. reflexivity.
  - reflexivity.
  - split; [exact H1|]. split; [rewrite H2; reflexivity | exact H3].
Defined.

Lemma X7_Stop_shuts_down_the_server_of_Start_witness :
  prometheusProvider_Stop 0%nat 1%nat world_started =
  (Ok None,
   set_log (w_log world_started ++
              [mkLogEntry 7%nat LevelInfo "stopping metrics HTTP server" []])
           world_started).
Proof.
  apply (X7_Stop_shuts_down_the_server_of_Start
           100 0%nat provider_9090 0%nat 1%nat world_9090 world_started world_started).
  - exact world_9090_reachable.
  - exact world_9090_provider.
  - vm_compute. congruence.
  - vm_compute. reflexivity.
  - apply rtc_refl.
Defined.


Lemma X9_Start_panics_on_a_refused_path_witness :
  fst (prometheusProvider_Start 0%nat 0%nat world_no_path) = Panic "http: invalid pattern" /\
  w_goroutines (after (prometheusProvider_Start 0%nat 0%nat) world_no_path) = [] /\
  fst (prometheusProvider_Stop 0%nat 0%nat
         (after (prometheusProvider_Start 0%nat 0%nat) world_no_path)) = Ok None.
Proof.
  destruct (X9_Start_panics_on_a_refused_path
              0%nat provider_no_path 0%nat 0%nat world_no_path) as (H1 & _ & H3 & H4).
  - vm_compute. reflexivity.
  - vm_compute. congruence.
  - vm_compute. reflexivity.
  - split; [rewrite H1; reflexivity|].
    split; [vm_compute; reflexivity|].
    unfold after. rewrite H1. cbn [snd]. rewrite H4 by reflexivity. reflexivity.
Defined.


Lemma X12_facade_returns_the_first_handle_witness :
  metricsImpl_Counter (mk_metricsImpl (Provider_prometheus 0%nat) 8%nat) "requests_total"
                      [WithLabels ["a"; "b"]; WithNamespace "myapp"] world_counter_later =
  (Ok (Counter_prometheus 0%nat), world_counter_later).
Proof.
  apply (X12_facade_returns_the_first_handle
           0%nat provider_9090 7%nat 8%nat "requests_total"
           [WithHelp "Total requests"; WithLabels ["method"]]
           [WithLabels ["a"; "b"]; WithNamespace "myapp"]
           world_9090 world_counter world_counter_later).
  - exact world_9090_provider.
  - exact world_counter_later_reachable.
  - vm_compute. reflexivity.
  - vm_compute. reflexivity.
Defined.

Lemma X18_Stop_is_never_negative_witness :
  0 <= 1500000000 /\
  (forall hp, Histogram_prometheus 0%nat = Histogram_prometheus hp ->
              1500000000 = w_now world_histogram_later - w_now world_histogram).
Proof.
  apply (X18_Stop_is_never_negative
           (Histogram_prometheus 0%nat) ["GET"]
           (Timer_prometheus (mkTimer 0%nat ["GET"] 100)) 1500000000
           world_histogram world_histogram world_histogram_later
           (after (prometheusTimer_Stop (mkTimer 0%nat ["GET"] 100)) world_histogram_later)).
  - vm_compute. split; congruence.
  - vm_compute. split; congruence.
  - vm_compute. reflexivity.
  - eapply rtc_l; [|apply rtc_refl]. exists (Call_tick 1500000000). reflexivity.
  - vm_compute. reflexivity.
Defined.
